(** * Alpha governor: hysteresis gate, command emitter and control loop

    A shallow embedding of [alpha_governor/server/main.py] and the
    properties of its evaluation tick.

    Python [float] values are IEEE 754 binary64 numbers, represented by
    the standard library's [spec_float] at precision 53; Python [int]
    values are [Z]; dictionaries are [gmap]s, except for [buckets], whose
    iteration order matters and which is kept as an association list. *)

From Stdlib Require Import ZArith Lia Bool Ascii String List.
From Stdlib Require Import Floats.SpecFloat.
From stdpp Require Import gmap strings list.

Local Open Scope Z_scope.

(** ** Binary64 floats *)

Module F64.

Definition prec : Z := 53.
Definition emax : Z := 1024.

Definition float := spec_float.

Definition zero : float := S754_zero false.
Definition nan : float := S754_nan.

Definition add (x y : float) : float := SFadd prec emax x y.
Definition sub (x y : float) : float := SFsub prec emax x y.
Definition div (x y : float) : float := SFdiv prec emax x y.
Definition abs (x : float) : float := SFabs x.
Definition ltb (x y : float) : bool := SFltb x y.
Definition leb (x y : float) : bool := SFleb x y.
Definition eqb (x y : float) : bool := SFeqb x y.

Definition is_zero (x : float) : bool :=
  match x with S754_zero _ => true | _ => false end.


Definition is_finite (x : float) : bool :=
  match x with S754_zero _ | S754_finite _ _ _ => true | _ => false end.

(** The float nearest to [n / d] (ties to even), for [d > 0]: the
    value of Python's [n / d] on two integers, and of a decimal
    literal. [SFdiv] rounds the exact quotient once, whatever the size
    of the two mantissas. *)
Definition of_ratio (n : Z) (d : positive) : float :=
  match n with
  | Z0 => zero
  | Zpos p => div (S754_finite false p 0) (S754_finite false d 0)
  | Zneg p => div (S754_finite true p 0) (S754_finite false d 0)
  end.

(** [of_decimal n k] is the literal [n * 10^k]. *)
Definition of_decimal (n k : Z) : float :=
  match k with
  | Z0 => of_ratio n 1
  | Zpos p => of_ratio (n * 10 ^ k) 1
  | Zneg p => of_ratio n (Z.to_pos (10 ^ Zpos p))
  end.

Definition of_Z (n : Z) : float := of_ratio n 1.

End F64.

Abbreviation float := F64.float.

(** ** Python values and exceptions *)

Inductive exn :=
  | KeyError
  | TypeError
  | ValueError
  | ZeroDivisionError
  | AttributeError
  | StatisticsError
  | OSError.

Inductive result (A : Type) :=
  | Ok (a : A)
  | Raise (e : exn).
Arguments Ok {A} a.
Arguments Raise {A} e.

Definition result_bind {A B} (r : result A) (k : A -> result B) : result B :=
  match r with
  | Ok a => k a
  | Raise e => Raise e
  end.

Definition is_raise {A} (r : result A) : bool :=
  match r with Ok _ => false | Raise _ => true end.

(** [x / y] on floats raises when the divisor is zero. *)
Definition py_truediv (x y : float) : result float :=
  if F64.is_zero y then Raise ZeroDivisionError else Ok (F64.div x y).

(** Truth value of a float: every value except the two zeros. *)
Definition py_truthy (x : float) : bool := negb (F64.is_zero x).

(** [x or y]. *)
Definition py_or (x y : float) : float := if py_truthy x then x else y.

(** [min(a, b)] and [max(a, b)]: the first argument is kept unless the
    second one compares strictly below (above) it. *)
Definition py_min (a b : float) : float := if F64.ltb b a then b else a.
Definition py_max (a b : float) : float := if F64.ltb a b then b else a.

(** [l[k:]] for a possibly negative start index. *)
Definition py_slice_from {A} (k : Z) (l : list A) : list A :=
  let n := Z.of_nat (length l) in
  let start := if k <? 0 then Z.max 0 (n + k) else Z.min k n in
  drop (Z.to_nat start) l.

(** The functions of the Python library that the governor calls on
    floats: [py_float] is [float(s)] on a string, [statistics_mean] and
    [statistics_pstdev] are [statistics.mean] and [statistics.pstdev],
    [py_round x n] is [round(x, n)]. The first three may raise. *)
Record pylib := {
  py_float : string -> result float;
  statistics_mean : list float -> result float;
  statistics_pstdev : list float -> result float;
  py_round : float -> Z -> float;
}.

(** ** A reference instance of the library

    The functions below compute what CPython computes on finite floats:
    [statistics.mean] and [statistics.pstdev] work on exact rationals
    and round once at the end, [round] rounds the exact binary value to
    the requested number of decimals (ties to even) and converts the
    decimal back, [float] reads a decimal literal. They serve the
    executable scenarios; the theorems on the governor hold for every
    [pylib]. *)

Module CPython.

(** A finite float is [m * 2^e] exactly. *)
Definition exact (x : float) : option (Z * Z) :=
  match x with
  | S754_zero _ => Some (0, 0)
  | S754_finite s m e => Some (cond_Zopp s (Zpos m), e)
  | _ => None
  end.

Definition exact_all (data : list float) : option (list (Z * Z)) :=
  mapM exact data.

Definition min_exp (ds : list (Z * Z)) : Z :=
  foldr (fun d acc => Z.min (snd d) acc) 0 ds.

(** Mantissa of [d] at the smaller exponent [e0]. *)
Definition align (e0 : Z) (d : Z * Z) : Z := fst d * 2 ^ (snd d - e0).

Definition sum_Z (l : list Z) : Z := foldr Z.add 0 l.

(** The float nearest to [n * 2^e / d]. *)
Definition of_scaled_ratio (n e : Z) (d : positive) : float :=
  match n with
  | Z0 => F64.zero
  | Zpos p => F64.div (S754_finite false p e) (S754_finite false d 0)
  | Zneg p => F64.div (S754_finite true p e) (S754_finite false d 0)
  end.

(** [statistics.mean]: the exact sum divided by the count, rounded
    once. With an infinity or a NaN among the data, the sum is the float
    sum of those values. *)
Definition mean (data : list float) : result float :=
  let n := Z.of_nat (length data) in
  if n =? 0 then Raise StatisticsError
  else match exact_all data with
       | Some ds =>
           let e0 := min_exp ds in
           Ok (of_scaled_ratio (sum_Z (map (align e0) ds)) e0 (Z.to_pos n))
       | None =>
           let total :=
             foldl F64.add F64.zero
                   (filter (fun x => F64.is_finite x = false) data) in
           Ok (F64.div total (F64.of_Z n))
       end.

Definition bit_length (n : Z) : Z := if n =? 0 then 0 else Z.log2 n + 1.

(** Square root of [n / m] rounded to an integer, to odd. *)
Definition integer_sqrt_of_frac_rto (n m : Z) : Z :=
  let a := Z.sqrt (n / m) in
  Z.lor a (if a * a * m =? n then 0 else 1).

(** Square root of [n / m] as a float, correctly rounded. *)
Definition float_sqrt_of_frac (n m : Z) : float :=
  let q := (bit_length n - bit_length m - 109) / 2 in
  if 0 <=? q
  then F64.of_ratio (Z.shiftl (integer_sqrt_of_frac_rto n (Z.shiftl m (2 * q))) q) 1
  else F64.of_ratio (integer_sqrt_of_frac_rto (Z.shiftl n (- 2 * q)) m)
                    (Z.to_pos (Z.shiftl 1 (- q))).

(** [statistics.pstdev] on finite data: the square root of the exact
    population variance [(n * sum x^2 - (sum x)^2) / n^2]. With an
    infinity or a NaN among the data, Python 3.11 fails on an attribute
    of the float sum. *)
Definition pstdev (data : list float) : result float :=
  let n := Z.of_nat (length data) in
  if n =? 0 then Raise StatisticsError
  else match exact_all data with
       | Some ds =>
           let e0 := min_exp ds in
           let xs := map (align e0) ds in
           let sx := sum_Z xs in
           let sxx := sum_Z (map (fun x => x * x) xs) in
           Ok (float_sqrt_of_frac (n * sxx - sx * sx)
                                  (n * n * 2 ^ (- 2 * e0)))
       | None => Raise AttributeError
       end.

Definition round_half_even (num den : Z) : Z :=
  let q := num / den in
  match 2 * (num mod den) ?= den with
  | Lt => q
  | Gt => q + 1
  | Eq => if Z.even q then q else q + 1
  end.

(** [round(x, ndigits)]. *)
Definition round (x : float) (ndigits : Z) : float :=
  match x with
  | S754_finite s m e =>
      let up := 10 ^ Z.max 0 ndigits in
      let down := 10 ^ Z.max 0 (- ndigits) in
      let num := Zpos m * 2 ^ Z.max 0 e * up in
      let den := 2 ^ Z.max 0 (- e) * down in
      let k := round_half_even num den in
      if k =? 0 then S754_zero s
      else F64.of_ratio (cond_Zopp s (k * down)) (Z.to_pos up)
  | _ => x
  end.

Definition is_digit (c : ascii) : bool :=
  let n := Z.of_N (N_of_ascii c) in (48 <=? n) && (n <=? 57).

Definition is_space (c : ascii) : bool :=
  let n := Z.of_N (N_of_ascii c) in (n =? 32) || ((9 <=? n) && (n <=? 13)).

(** Reads a run of digits: the number read after [acc], how many digits
    were read, and what follows them. *)
Fixpoint take_digits (l : list ascii) (acc count : Z) : Z * Z * list ascii :=
  match l with
  | c :: r =>
      if is_digit c
      then take_digits r (10 * acc + (Z.of_N (N_of_ascii c) - 48)) (count + 1)
      else (acc, count, l)
  | [] => (acc, count, l)
  end.

Definition take_sign (l : list ascii) : bool * list ascii :=
  match l with
  | "-"%char :: r => (true, r)
  | "+"%char :: r => (false, r)
  | _ => (false, l)
  end.

(** Digits, an optional fraction and an optional exponent: the value is
    [digits * 10^scale]. *)
Definition parse_decimal (l : list ascii) : option (Z * Z) :=
  let '(ip, ni, r1) := take_digits l 0 0 in
  let '(d, nf, r2) :=
    match r1 with
    | "."%char :: r => take_digits r ip 0
    | _ => (ip, 0, r1)
    end in
  if ni + nf =? 0 then None
  else match r2 with
       | [] => Some (d, - nf)
       | c :: r3 =>
           if (Ascii.eqb c "e" || Ascii.eqb c "E")%bool
           then let '(s, r4) := take_sign r3 in
                let '(x, nx, r5) := take_digits r4 0 0 in
                match r5 with
                | [] => if nx =? 0 then None else Some (d, cond_Zopp s x - nf)
                | _ => None
                end
           else None
       end.

Definition strip (l : list ascii) : list ascii :=
  let drop_spaces := fix go (l : list ascii) :=
    match l with
    | c :: r => if is_space c then go r else l
    | [] => []
    end in
  rev (drop_spaces (rev (drop_spaces l))).

(** [float(s)] on decimal literals, [inf] and [nan] in lower case;
    digit-group underscores and other spellings are not read. *)
Definition float_of_string (s : string) : result float :=
  let '(sg, body) := take_sign (strip (list_ascii_of_string s)) in
  let word := string_of_list_ascii body in
  if String.eqb word "nan" then Ok F64.nan
  else if (String.eqb word "inf" || String.eqb word "infinity")%bool
  then Ok (S754_infinity sg)
  else match parse_decimal body with
       | Some (d, k) =>
           if d =? 0 then Ok (S754_zero sg)
           else Ok (F64.of_decimal (cond_Zopp sg d) k)
       | None => Raise ValueError
       end.

Definition lib : pylib := {|
  py_float := float_of_string;
  statistics_mean := mean;
  statistics_pstdev := pstdev;
  py_round := round;
|}.

End CPython.

(** ** Data model *)

(** A dictionary key read from a CSV cell: a string, or Python's [None]
    for a cell that a short row leaves unfilled. *)
Abbreviation symbol := (option string).

(** A row of [csv.DictReader]: column name to cell. *)
Abbreviation row := (gmap string (option string)).

(** What [open(RESEARCH)] and the reader give at one tick. *)
Inductive source :=
  | Readable (rows : list row)
  | Unreadable.

(** The keys of [CONFIG] that the governor reads. The first seven are
    bound to module constants at import; [max_weight] and [min_weight]
    are looked up in [CONFIG] when an engine is enabled and may be
    absent. *)
Record config := {
  MIN_EDGE : float;
  COST : float;
  WINDOW : Z;
  MIN_CONF : float;
  DISABLE_WINDOWS : Z;
  ENABLE_WINDOWS : Z;
  COOLDOWN : Z;
  max_weight : option float;
  min_weight : option float;
}.

(** The two command lines. The float fields are the values that the
    f-string formats. *)
Inductive command :=
  | DISABLE_ENGINE (sym : symbol) (survival conf : float)
  | ENABLE_ENGINE (sym : symbol) (weight : float).

Definition command_symbol (c : command) : symbol :=
  match c with
  | DISABLE_ENGINE s _ _ => s
  | ENABLE_ENGINE s _ => s
  end.

Definition is_disable (c : command) : bool :=
  match c with DISABLE_ENGINE _ _ _ => true | ENABLE_ENGINE _ _ => false end.

Definition is_enable (c : command) : bool :=
  match c with DISABLE_ENGINE _ _ _ => false | ENABLE_ENGINE _ _ => true end.

(** Lines printed by [emit]. *)
Inductive printed :=
  | Would_execute (c : command)
  | Recommending (c : command)
  | Act_line (c : command).

(** Lines appended to [CMD_FILE]: tagged in ADVISE mode, verbatim in
    ACT mode. *)
Inductive file_line :=
  | Advise (c : command)
  | Verbatim (c : command).

(** One value of the [STATE] dictionary. *)
Record entry := {
  edge : float;
  confidence : float;
  survival : float;
  fail_count : Z;
  pass_count : Z;
  trades_since_action : Z;
  can_act : bool;
  mode : string;
  status : string;
}.

(** The message of one broadcast: [{"mode": MODE, "engines": STATE}]. *)
Abbreviation snapshot := (string * gmap symbol entry)%type.

(** The module's globals, followed by what lies outside the process:
    standard output, the command file ([None] when it cannot be opened
    for appending), the sockets on which [send_json] succeeds and what
    each one received, and the history of the calls to [emit]. *)
Record world := {
  MODE : string;
  CLIENTS : gset nat;
  STATE : gmap symbol entry;
  fail_counts : gmap symbol Z;
  pass_counts : gmap symbol Z;
  last_action_trade : gmap symbol Z;
  stdout : list printed;
  command_file : option (list file_line);
  connected : gset nat;
  delivered : list (nat * snapshot);
  emitted : list command;
}.

Definition set_CLIENTS (f : gset nat -> gset nat) (w : world) : world :=
  {| MODE := MODE w; CLIENTS := f (CLIENTS w); STATE := STATE w;
     fail_counts := fail_counts w; pass_counts := pass_counts w;
     last_action_trade := last_action_trade w; stdout := stdout w;
     command_file := command_file w; connected := connected w;
     delivered := delivered w; emitted := emitted w |}.

Definition set_STATE (f : gmap symbol entry -> gmap symbol entry) (w : world) : world :=
  {| MODE := MODE w; CLIENTS := CLIENTS w; STATE := f (STATE w);
     fail_counts := fail_counts w; pass_counts := pass_counts w;
     last_action_trade := last_action_trade w; stdout := stdout w;
     command_file := command_file w; connected := connected w;
     delivered := delivered w; emitted := emitted w |}.

Definition set_fail_counts (f : gmap symbol Z -> gmap symbol Z) (w : world) : world :=
  {| MODE := MODE w; CLIENTS := CLIENTS w; STATE := STATE w;
     fail_counts := f (fail_counts w); pass_counts := pass_counts w;
     last_action_trade := last_action_trade w; stdout := stdout w;
     command_file := command_file w; connected := connected w;
     delivered := delivered w; emitted := emitted w |}.

Definition set_pass_counts (f : gmap symbol Z -> gmap symbol Z) (w : world) : world :=
  {| MODE := MODE w; CLIENTS := CLIENTS w; STATE := STATE w;
     fail_counts := fail_counts w; pass_counts := f (pass_counts w);
     last_action_trade := last_action_trade w; stdout := stdout w;
     command_file := command_file w; connected := connected w;
     delivered := delivered w; emitted := emitted w |}.

Definition set_last_action_trade (f : gmap symbol Z -> gmap symbol Z) (w : world) : world :=
  {| MODE := MODE w; CLIENTS := CLIENTS w; STATE := STATE w;
     fail_counts := fail_counts w; pass_counts := pass_counts w;
     last_action_trade := f (last_action_trade w); stdout := stdout w;
     command_file := command_file w; connected := connected w;
     delivered := delivered w; emitted := emitted w |}.

Definition set_stdout (f : list printed -> list printed) (w : world) : world :=
  {| MODE := MODE w; CLIENTS := CLIENTS w; STATE := STATE w;
     fail_counts := fail_counts w; pass_counts := pass_counts w;
     last_action_trade := last_action_trade w; stdout := f (stdout w);
     command_file := command_file w; connected := connected w;
     delivered := delivered w; emitted := emitted w |}.

Definition set_command_file (f : option (list file_line) -> option (list file_line)) (w : world) : world :=
  {| MODE := MODE w; CLIENTS := CLIENTS w; STATE := STATE w;
     fail_counts := fail_counts w; pass_counts := pass_counts w;
     last_action_trade := last_action_trade w; stdout := stdout w;
     command_file := f (command_file w); connected := connected w;
     delivered := delivered w; emitted := emitted w |}.

Definition set_delivered (f : list (nat * snapshot) -> list (nat * snapshot)) (w : world) : world :=
  {| MODE := MODE w; CLIENTS := CLIENTS w; STATE := STATE w;
     fail_counts := fail_counts w; pass_counts := pass_counts w;
     last_action_trade := last_action_trade w; stdout := stdout w;
     command_file := command_file w; connected := connected w;
     delivered := f (delivered w); emitted := emitted w |}.

Definition set_emitted (f : list command -> list command) (w : world) : world :=
  {| MODE := MODE w; CLIENTS := CLIENTS w; STATE := STATE w;
     fail_counts := fail_counts w; pass_counts := pass_counts w;
     last_action_trade := last_action_trade w; stdout := stdout w;
     command_file := command_file w; connected := connected w;
     delivered := delivered w; emitted := f (emitted w) |}.

Definition set_MODE (m : string) (w : world) : world :=
  {| MODE := m; CLIENTS := CLIENTS w; STATE := STATE w;
     fail_counts := fail_counts w; pass_counts := pass_counts w;
     last_action_trade := last_action_trade w; stdout := stdout w;
     command_file := command_file w; connected := connected w;
     delivered := delivered w; emitted := emitted w |}.

(** The globals at import, in a given environment. *)
Definition initial (m : string) (file : option (list file_line)) (socks : gset nat) : world :=
  {| MODE := m; CLIENTS := ∅; STATE := ∅;
     fail_counts := ∅; pass_counts := ∅; last_action_trade := ∅;
     stdout := []; command_file := file; connected := socks;
     delivered := []; emitted := [] |}.

(** [d[k]] on a [defaultdict(int)], as a value. *)
Definition dget (d : gmap symbol Z) (k : symbol) : Z := default 0 (d !! k).

(** ** Statements: state and exceptions *)

Definition M (A : Type) : Type := world -> world * result A.

Definition ret {A} (a : A) : M A := fun w => (w, Ok a).

Definition bind {A B} (m : M A) (k : A -> M B) : M B :=
  fun w => match m w with
           | (w', Ok a) => k a w'
           | (w', Raise e) => (w', Raise e)
           end.

Definition lift {A} (r : result A) : M A := fun w => (w, r).

Definition modify (f : world -> world) : M unit := fun w => (f w, Ok tt).

Definition gets {A} (f : world -> A) : M A := fun w => (w, Ok (f w)).

Declare Scope py_scope.
Delimit Scope py_scope with py.
Notation "'let!' x ':=' m 'in' k" := (bind m (fun x => k))
  (at level 10, x name, m at level 100, k at level 200) : py_scope.
Notation "'run!' m 'in' k" := (bind m (fun _ => k))
  (at level 10, m at level 100, k at level 200) : py_scope.
Notation "'try!' x ':=' r 'in' k" := (result_bind r (fun x => k))
  (at level 10, x name, r at level 100, k at level 200) : py_scope.
Local Open Scope py_scope.

(** ** Buckets *)

(** [buckets] keeps its keys in the order of their first insertion. *)
Abbreviation buckets_t := (list (symbol * list float)).

Definition bucket_keys (b : buckets_t) : list symbol := map fst b.

(** [if sym not in buckets: buckets[sym] = []]. *)
Definition ensure_bucket (sym : symbol) (b : buckets_t) : buckets_t :=
  if decide (sym ∈ bucket_keys b) then b else b ++ [(sym, [])].

(** [buckets[sym].append(x)]. *)
Fixpoint bucket_append (sym : symbol) (x : float) (b : buckets_t) : buckets_t :=
  match b with
  | [] => []
  | (s, l) :: r =>
      if decide (s = sym) then (s, l ++ [x]) :: r
      else (s, l) :: bucket_append sym x r
  end.

(** ** The governor *)

Section Governor.

Variable L : pylib.
Variable C : config.

(** The literals [1e-9] and [2.0]. *)
Definition epsilon : float := F64.of_decimal 1 (-9).
Definition two : float := F64.of_Z 2.

(** [load_trades]: every row of the file, or no row at all when opening
    or reading it raises. *)
Definition load_trades (src : source) : list row :=
  match src with
  | Readable rows => rows
  | Unreadable => []
  end.

Definition compute_confidence (pnls : list float) : result float :=
  if Z.of_nat (length pnls) <? 5 then Ok F64.zero
  else
    try! mu := statistics_mean L pnls in
    try! sd := statistics_pstdev L pnls in
    let sigma := py_or sd epsilon in
    try! q := py_truediv mu sigma in
    Ok (F64.abs q).

(** [with open(CMD_FILE, "a") as f: f.write(...)]. *)
Definition append_command (ln : file_line) : M unit :=
  fun w =>
    match command_file w with
    | Some lines => (set_command_file (fun _ => Some (lines ++ [ln])) w, Ok tt)
    | None => (w, Raise OSError)
    end.

Definition print (ln : printed) : M unit :=
  modify (set_stdout (fun out => out ++ [ln])).

Definition emit (cmd : command) : M unit :=
  run! modify (set_emitted (fun h => h ++ [cmd])) in
  let! m := gets MODE in
  if String.eqb m "OBSERVE" then
    print (Would_execute cmd)
  else if String.eqb m "ADVISE" then
    run! print (Recommending cmd) in
    append_command (Advise cmd)
  else
    run! append_command (Verbatim cmd) in
    print (Act_line cmd).

(** [for ws in list(CLIENTS)]: a socket that fails is removed. *)
Definition broadcast (data : snapshot) : M unit :=
  fun w =>
    (foldl (fun w ws =>
              if decide (ws ∈ connected w)
              then set_delivered (fun d => d ++ [(ws, data)]) w
              else set_CLIENTS (fun s => s ∖ {[ws]}) w)
           w (elements (CLIENTS w)),
     Ok tt).

(** [t[k]] on a row. *)
Definition getitem (t : row) (k : string) : result (option string) :=
  match t !! k with
  | Some v => Ok v
  | None => Raise KeyError
  end.

(** [float(v)] on a cell. *)
Definition float_of_cell (v : option string) : result float :=
  match v with
  | Some s => py_float L s
  | None => Raise TypeError
  end.

(** The first loop of [analyze]. *)
Fixpoint fill_buckets (rows : list row) (b : buckets_t) : result buckets_t :=
  match rows with
  | [] => Ok b
  | t :: rest =>
      try! sym := getitem t "symbol" in
      let b := ensure_bucket sym b in
      try! cell := getitem t "total_pnl" in
      try! x := float_of_cell cell in
      fill_buckets rest (bucket_append sym x b)
  end.

(** [last_action_trade[sym]]: reading a missing key stores the default. *)
Definition read_last_action_trade (sym : symbol) : M Z :=
  fun w =>
    let v := dget (last_action_trade w) sym in
    (set_last_action_trade (<[sym := v]>) w, Ok v).

Definition config_get (v : option float) : result float :=
  match v with
  | Some x => Ok x
  | None => Raise KeyError
  end.

(** What the loop body derives from a bucket before it touches the
    globals: [edge], [conf], [survival] and [is_failing]. *)
Record window_stats := {
  ws_edge : float;
  ws_conf : float;
  ws_survival : float;
  ws_is_failing : bool;
}.

Definition compute_stats (pnls : list float) : result window_stats :=
  try! edge := match pnls with
               | [] => Ok F64.zero
               | _ => statistics_mean L pnls
               end in
  try! conf := compute_confidence pnls in
  let survival := F64.sub edge (COST C) in
  let is_failing := F64.ltb survival (MIN_EDGE C) || F64.ltb conf (MIN_CONF C) in
  Ok {| ws_edge := edge; ws_conf := conf; ws_survival := survival;
        ws_is_failing := is_failing |}.

(** The body of the second loop of [analyze], for one item of
    [buckets]. The four pure assignments come first, as [compute_stats];
    the statements on the globals follow in the order of the source. *)
Definition eval_symbol (current_trade_count : Z) (sym : symbol) (pnls : list float) : M unit :=
  let! st := lift (compute_stats pnls) in
  let edge := ws_edge st in
  let conf := ws_conf st in
  let survival := ws_survival st in
  let is_failing := ws_is_failing st in
  let! last := read_last_action_trade sym in
  let trades_since_action := current_trade_count - last in
  let can_act := COOLDOWN C <=? trades_since_action in
  run! (if is_failing then
          run! modify (set_fail_counts (fun d => <[sym := dget d sym + 1]> d)) in
          modify (set_pass_counts (<[sym := 0]>))
        else
          run! modify (set_pass_counts (fun d => <[sym := dget d sym + 1]> d)) in
          modify (set_fail_counts (<[sym := 0]>))) in
  let! fc := gets (fun w => dget (fail_counts w) sym) in
  let! pc := gets (fun w => dget (pass_counts w) sym) in
  let! m := gets MODE in
  run! modify (set_STATE (<[sym := {|
         edge := py_round L edge 4;
         confidence := py_round L conf 4;
         survival := py_round L survival 4;
         fail_count := fc;
         pass_count := pc;
         trades_since_action := trades_since_action;
         can_act := can_act;
         mode := m;
         status := if negb is_failing then "PASS" else "WARN" |}]>)) in
  if negb can_act then ret tt
  else
    run! (let! fc := gets (fun w => dget (fail_counts w) sym) in
          if DISABLE_WINDOWS C <=? fc then
            run! emit (DISABLE_ENGINE sym survival conf) in
            run! modify (set_fail_counts (<[sym := 0]>)) in
            modify (set_last_action_trade (<[sym := current_trade_count]>))
          else ret tt) in
    let! pc := gets (fun w => dget (pass_counts w) sym) in
    if ENABLE_WINDOWS C <=? pc then
      let! hi := lift (config_get (max_weight C)) in
      let! lo := lift (config_get (min_weight C)) in
      let weight := py_min hi (py_max lo (F64.div conf two)) in
      run! emit (ENABLE_ENGINE sym (py_round L weight 3)) in
      run! modify (set_pass_counts (<[sym := 0]>)) in
      modify (set_last_action_trade (<[sym := current_trade_count]>))
    else ret tt.

(** [for sym, pnls in buckets.items()]. *)
Fixpoint eval_buckets (current_trade_count : Z) (b : buckets_t) : M unit :=
  match b with
  | [] => ret tt
  | (sym, pnls) :: rest =>
      run! eval_symbol current_trade_count sym pnls in
      eval_buckets current_trade_count rest
  end.

Definition analyze (src : source) : M unit :=
  let trades := load_trades src in
  if Z.of_nat (length trades) <? WINDOW C then ret tt
  else
    let current_trade_count := Z.of_nat (length trades) in
    let! buckets := lift (fill_buckets (py_slice_from (- WINDOW C) trades) []) in
    eval_buckets current_trade_count buckets.

(** One turn of the loop of the [/ws] handler of socket [self] (after
    the sleep), and how the handler goes on: the bare [except] ends it,
    and [CLIENTS.remove] raises when [broadcast] already removed the
    socket. *)
Inductive loop_status :=
  | Continue
  | Exit (r : result unit).

Definition ws_iteration (self : nat) (src : source) (w : world) : world * loop_status :=
  match (run! analyze src in
         let! m := gets MODE in
         let! engines := gets STATE in
         broadcast (m, engines)) w with
  | (w', Ok _) => (w', Continue)
  | (w', Raise _) =>
      if decide (self ∈ CLIENTS w')
      then (set_CLIENTS (fun s => s ∖ {[self]}) w', Exit (Ok tt))
      else (w', Exit (Raise KeyError))
  end.

(** [await ws.accept(); CLIENTS.add(ws)]. *)
Definition ws_accept (self : nat) (w : world) : world :=
  set_CLIENTS (fun s => {[self]} ∪ s) w.

(** [POST /set_mode]: the answer is [true] for [{"status": "ok"}]. *)
Definition set_mode (m : string) (w : world) : world * bool :=
  if decide (m ∈ ["OBSERVE"; "ADVISE"; "ACT"]) then (set_MODE m w, true)
  else (w, false).

End Governor.

(** ** Observations on a run *)

(** What the globals hold for one symbol. *)
Definition view (sym : symbol) (w : world) : Z * Z * Z * option entry :=
  (dget (fail_counts w) sym, dget (pass_counts w) sym,
   dget (last_action_trade w) sym, STATE w !! sym).

(** The calls to [emit] made between [w] and a later world [w']. *)
Definition emitted_since (w w' : world) : list command :=
  drop (length (emitted w)) (emitted w').

Definition commands_for (sym : symbol) (l : list command) : list command :=
  filter (fun c => command_symbol c = sym) l.

(** Nothing happened to [sym] between [w] and [w']: same counters, same
    snapshot entry, and no command for it. *)
Definition quiet (sym : symbol) (w w' : world) : Prop :=
  view sym w' = view sym w ∧
  ∃ l, emitted w' = emitted w ++ l ∧ Forall (fun c => command_symbol c ≠ sym) l.

(** The bucket of [sym], with the items that precede it. *)
Fixpoint split_at_symbol (sym : symbol) (b : buckets_t) : option (buckets_t * list float) :=
  match b with
  | [] => None
  | (s, l) :: rest =>
      if decide (s = sym) then Some ([], l)
      else match split_at_symbol sym rest with
           | Some (pre, pnls) => Some ((s, l) :: pre, pnls)
           | None => None
           end
  end.

(** Step 1 of the transition rule, on the two counters. *)
Definition step1 (is_failing : bool) (fc pc : Z) : Z * Z :=
  if is_failing then (fc + 1, 0) else (0, pc + 1).



(** [r] is [x] clamped into [[lo, hi]], in the order and the equality of
    floats. *)
Definition clamped_into (lo hi x r : float) : Prop :=
  F64.leb lo r = true ∧ F64.leb r hi = true ∧
  (F64.ltb x lo = true → F64.eqb r lo = true) ∧
  (F64.ltb hi x = true → F64.eqb r hi = true) ∧
  (F64.leb lo x = true → F64.leb x hi = true → F64.eqb r x = true).

(** A float as a point of a lexicographic order on integers: class,
    exponent, mantissa. NaN has none. *)
Definition key (x : float) : option (Z * Z * Z) :=
  match x with
  | S754_nan => None
  | S754_infinity true => Some (-2, 0, 0)
  | S754_infinity false => Some (2, 0, 0)
  | S754_zero _ => Some (0, 0, 0)
  | S754_finite false m e => Some (1, e, Zpos m)
  | S754_finite true m e => Some (-1, - e, Zneg m)
  end.

Definition lex_cmp (a b : Z * Z * Z) : comparison :=
  match a.1.1 ?= b.1.1 with
  | Eq => match a.1.2 ?= b.1.2 with
          | Eq => a.2 ?= b.2
          | r => r
          end
  | r => r
  end.

Definition lex_lt (a b : Z * Z * Z) : Prop :=
  a.1.1 < b.1.1 ∨
  (a.1.1 = b.1.1 ∧ (a.1.2 < b.1.2 ∨ (a.1.2 = b.1.2 ∧ a.2 < b.2))).

Section Observers.

Variable L : pylib.
Variable C : config.

Definition tick_count (src : source) : Z := Z.of_nat (length (load_trades src)).

Definition window_buckets (src : source) : result buckets_t :=
  fill_buckets L (py_slice_from (- WINDOW C) (load_trades src)) [].

(** The statistics with which the tick on [src] from [w] evaluates
    [sym]: none when the tick is skipped, when [sym] has no record in
    the window, or when the tick ends before the gate of [sym] runs. *)
Definition evaluated_at (sym : symbol) (src : source) (w : world) : option window_stats :=
  if tick_count src <? WINDOW C then None
  else match window_buckets src with
       | Ok b =>
           match split_at_symbol sym b with
           | Some (pre, pnls) =>
               match eval_buckets L C (tick_count src) pre w with
               | (_, Ok _) =>
                   match compute_stats L C pnls with
                   | Ok st => Some st
                   | Raise _ => None
                   end
               | (_, Raise _) => None
               end
           | None => None
           end
       | Raise _ => None
       end.

(** Consecutive ticks, whatever each one returns or raises. *)
Fixpoint run_ticks (srcs : list source) (w : world) : world :=
  match srcs with
  | [] => w
  | src :: rest => run_ticks rest (analyze L C src w).1
  end.

(** The [is_failing] signal of [sym] at each of these ticks. *)
Fixpoint signals (sym : symbol) (srcs : list source) (w : world) : list (option bool) :=
  match srcs with
  | [] => []
  | src :: rest =>
      (ws_is_failing <$> evaluated_at sym src w)
        :: signals sym rest (analyze L C src w).1
  end.

(** [emit] on each command in turn, stopping at the first exception. *)
Fixpoint emit_all (cmds : list command) : M unit :=
  match cmds with
  | [] => ret tt
  | c :: rest => run! emit c in emit_all rest
  end.

(** The worlds that the process can be in: the handlers of the server
    run one at a time, and the command file and the sockets change
    outside it. *)
Inductive reachable : world -> Prop :=
  | reach_initial m file socks : reachable (initial m file socks)
  | reach_analyze w src : reachable w -> reachable (analyze L C src w).1
  | reach_ws w self src : reachable w -> reachable (ws_iteration L C self src w).1
  | reach_accept w self : reachable w -> reachable (ws_accept self w)
  | reach_set_mode w m : reachable w -> reachable (set_mode m w).1
  | reach_file w f :
      reachable w -> reachable (set_command_file (fun _ => f) w)
  | reach_sockets w socks :
      reachable w ->
      reachable {| MODE := MODE w; CLIENTS := CLIENTS w; STATE := STATE w;
                   fail_counts := fail_counts w; pass_counts := pass_counts w;
                   last_action_trade := last_action_trade w;
                   stdout := stdout w; command_file := command_file w;
                   connected := socks; delivered := delivered w;
                   emitted := emitted w |}.

(** What the first loop of [analyze] reads from one row. *)
Definition parse_row (t : row) : result (symbol * float) :=
  try! sym := getitem t "symbol" in
  try! cell := getitem t "total_pnl" in
  try! x := float_of_cell L cell in
  Ok (sym, x).

End Observers.

Arguments eval_symbol : simpl never.
Arguments broadcast : simpl never.
Arguments analyze : simpl never.

(** The globals that an evaluation tick owns, the outputs of [emit]
    and the mode are the same in [w'] as in [w]. *)
Definition same_governor_state (w w' : world) : Prop :=
  MODE w' = MODE w ∧ STATE w' = STATE w ∧
  fail_counts w' = fail_counts w ∧ pass_counts w' = pass_counts w ∧
  last_action_trade w' = last_action_trade w ∧
  stdout w' = stdout w ∧ command_file w' = command_file w ∧
  emitted w' = emitted w.


(** ** Scenarios *)

Module Scenario.

Definition lit (n k : Z) : float := F64.of_decimal n k.

Definition trade (sym pnl : string) : row :=
  <["symbol" := Some sym]> (<["total_pnl" := Some pnl]> ∅).

Definition X : symbol := Some "X".
Definition Y : symbol := Some "Y".

(** window=20, cost=1.0, min_edge=0.5, min_confidence=0.3,
    disable_threshold=3, cooldown=0. *)
Definition cfg : config := {|
  MIN_EDGE := lit 5 (-1);
  COST := lit 1 0;
  WINDOW := 20;
  MIN_CONF := lit 3 (-1);
  DISABLE_WINDOWS := 3;
  ENABLE_WINDOWS := 5;
  COOLDOWN := 0;
  max_weight := Some (lit 5 (-1));
  min_weight := Some (lit 5 (-2));
|}.

(** The same with the default cooldown of 100 trades. *)
Definition cfg_cooldown : config := {|
  MIN_EDGE := lit 5 (-1);
  COST := lit 1 0;
  WINDOW := 20;
  MIN_CONF := lit 3 (-1);
  DISABLE_WINDOWS := 3;
  ENABLE_WINDOWS := 5;
  COOLDOWN := 100;
  max_weight := Some (lit 5 (-1));
  min_weight := Some (lit 5 (-2));
|}.

(** A window of two records and a single failure to disable. *)
Definition cfg_quick : config := {|
  MIN_EDGE := lit 5 (-1);
  COST := lit 1 0;
  WINDOW := 2;
  MIN_CONF := lit 3 (-1);
  DISABLE_WINDOWS := 1;
  ENABLE_WINDOWS := 5;
  COOLDOWN := 0;
  max_weight := Some (lit 5 (-1));
  min_weight := Some (lit 5 (-2));
|}.

(** A window of five records, no cost, and a single pass to enable. *)
Definition cfg_enable : config := {|
  MIN_EDGE := lit 0 0;
  COST := lit 0 0;
  WINDOW := 5;
  MIN_CONF := lit 1 (-1);
  DISABLE_WINDOWS := 3;
  ENABLE_WINDOWS := 1;
  COOLDOWN := 0;
  max_weight := Some (lit 5 (-1));
  min_weight := Some (lit 5 (-2));
|}.

(** Twenty trades of X, each with pnl=-2.0. *)
Definition losing : source := Readable (replicate 20 (trade "X" "-2.0")).


(** Twenty trades of X whose pnl is not a number. *)
Definition garbled : source := Readable (replicate 20 (trade "X" "abc")).

(** Fewer trades than the window. *)
Definition short : source := Readable [trade "X" "1.0"].

(** One losing trade of X, then one trade of Y. *)
Definition pair : source := Readable [trade "X" "-2.0"; trade "Y" "3.0"].

(** Five trades of X: 1, -1, 1, -1, 1. *)
Definition mixed : source :=
  Readable [trade "X" "1.0"; trade "X" "-1.0"; trade "X" "1.0";
            trade "X" "-1.0"; trade "X" "1.0"].

Definition w_act : world := initial "ACT" (Some []) ∅.
Definition w_observe : world := initial "OBSERVE" (Some []) ∅.

(** ACT mode with a command file that cannot be opened. *)
Definition w_locked : world := initial "ACT" None ∅.

(** One subscriber, connected. *)
Definition w_subscribed : world :=
  ws_accept 1%nat (initial "OBSERVE" (Some []) {[1%nat]}).




End Scenario.

(** ** The query surface *)

(** [GET /health]: the values of ["status"] and ["mode"]. *)
Definition health (w : world) : string * string :=
  ("alpha-governor-online", MODE w).


(** ** More observations *)

(** The three modes that [set_mode] accepts. *)
Definition valid_mode (m : string) : Prop := m ∈ ["OBSERVE"; "ADVISE"; "ACT"].

(** The line that [emit] prints for a command in mode [m], and the lines
    that it appends to the command file. *)
Definition printed_as (m : string) (c : command) : printed :=
  if String.eqb m "OBSERVE" then Would_execute c
  else if String.eqb m "ADVISE" then Recommending c
  else Act_line c.

Definition written_as (m : string) (c : command) : list file_line :=
  if String.eqb m "OBSERVE" then []
  else if String.eqb m "ADVISE" then [Advise c]
  else [Verbatim c].

(** [emit] cannot fail in [w]: nothing is written, or the command file
    can be opened. *)
Definition emits_succeed (w : world) : Prop :=
  MODE w = "OBSERVE" ∨ is_Some (command_file w).

(** Between [w] and [w'] every call to [emit] printed its line and
    appended what the mode of [w] asks for, and nothing else was printed
    or written. *)
Definition outputs_follow (w w' : world) : Prop :=
  MODE w' = MODE w ∧
  ∃ l, emitted w' = emitted w ++ l ∧
       stdout w' = stdout w ++ map (printed_as (MODE w)) l ∧
       command_file w' =
         (fun f => f ++ flat_map (written_as (MODE w)) l) <$> command_file w.

(** The PnL values of [sym] among parsed rows, in their order. *)
Definition values_of (sym : symbol) (prs : list (symbol * float)) : list float :=
  (filter (fun p => p.1 = sym) prs).*2.

(** The bucket of [sym], empty when it has none. *)
Definition bucket_get (sym : symbol) (b : buckets_t) : list float :=
  match split_at_symbol sym b with
  | Some (_, l) => l
  | None => []
  end.

(** The snapshot entry that the loop body writes for statistics [st]
    when the counters are [fc] and [pc] and the last action was at
    [last]. *)
Definition entry_of (L : pylib) (C : config) (n : Z) (m : string)
    (st : window_stats) (fc pc last : Z) : entry :=
  {| edge := py_round L (ws_edge st) 4;
     confidence := py_round L (ws_conf st) 4;
     survival := py_round L (ws_survival st) 4;
     fail_count := (step1 (ws_is_failing st) fc pc).1;
     pass_count := (step1 (ws_is_failing st) fc pc).2;
     trades_since_action := n - last;
     can_act := COOLDOWN C <=? n - last;
     mode := m;
     status := if negb (ws_is_failing st) then "PASS" else "WARN" |}.

(** ** Histories of the process *)

(** What can happen to the process, one thing at a time: the steps of
    [reachable], as data. *)
Inductive event :=
  | Tick (src : source)
  | Turn (self : nat) (src : source)
  | Accept (self : nat)
  | Set_mode (m : string)
  | File_becomes (f : option (list file_line))
  | Sockets_become (socks : gset nat).

Definition handle (L : pylib) (C : config) (ev : event) (w : world) : world :=
  match ev with
  | Tick src => (analyze L C src w).1
  | Turn self src => (ws_iteration L C self src w).1
  | Accept self => ws_accept self w
  | Set_mode m => (set_mode m w).1
  | File_becomes f => set_command_file (fun _ => f) w
  | Sockets_become socks =>
      {| MODE := MODE w; CLIENTS := CLIENTS w; STATE := STATE w;
         fail_counts := fail_counts w; pass_counts := pass_counts w;
         last_action_trade := last_action_trade w;
         stdout := stdout w; command_file := command_file w;
         connected := socks; delivered := delivered w;
         emitted := emitted w |}
  end.

Definition run_events (L : pylib) (C : config) (evs : list event) (w : world) : world :=
  foldl (fun w ev => handle L C ev w) w evs.

(** ** More scenarios *)

Module Cases.

Import Scenario.

(** A window of two records, a single failure to disable, and a
    cooldown of two trades. *)
Definition cfg_guarded : config := {|
  MIN_EDGE := lit 5 (-1);
  COST := lit 1 0;
  WINDOW := 2;
  MIN_CONF := lit 3 (-1);
  DISABLE_WINDOWS := 1;
  ENABLE_WINDOWS := 5;
  COOLDOWN := 2;
  max_weight := Some (lit 5 (-1));
  min_weight := Some (lit 5 (-2));
|}.

(** As [cfg_enable], with the two weights exchanged. *)
Definition cfg_swapped : config := {|
  MIN_EDGE := lit 0 0;
  COST := lit 0 0;
  WINDOW := 5;
  MIN_CONF := lit 1 (-1);
  DISABLE_WINDOWS := 3;
  ENABLE_WINDOWS := 1;
  COOLDOWN := 0;
  max_weight := Some (lit 5 (-2));
  min_weight := Some (lit 5 (-1));
|}.

(** As [cfg_enable], with a confidence threshold of zero. *)
Definition cfg_lenient : config := {|
  MIN_EDGE := lit 0 0;
  COST := lit 0 0;
  WINDOW := 5;
  MIN_CONF := lit 0 0;
  DISABLE_WINDOWS := 3;
  ENABLE_WINDOWS := 1;
  COOLDOWN := 0;
  max_weight := Some (lit 5 (-1));
  min_weight := Some (lit 5 (-2));
|}.


(** The rows of [pair]. *)
Definition pair_rows : list row := [trade "X" "-2.0"; trade "Y" "3.0"].

(** A row without the PnL column. *)
Definition bare : row := <["symbol" := Some "X"]> ∅.

(** A library whose mean is not a number. *)
Definition lib_nan : pylib := {|
  py_float := CPython.float_of_string;
  statistics_mean := fun _ => Ok F64.nan;
  statistics_pstdev := fun _ => Ok (lit 1 0);
  py_round := CPython.round;
|}.

End Cases.

(** * Properties *)

(** ** The order of floats *)

Lemma compare_key (a b : float) :
  SFcompare a b =
    match key a, key b with
    | Some ka, Some kb => Some (lex_cmp ka kb)
    | _, _ => None
    end.
Proof.
  destruct a as [[]|[]| |[] m1 e1], b as [[]|[]| |[] m2 e2]; try reflexivity.
  cbn. unfold lex_cmp; cbn. rewrite Z.compare_opp.
  rewrite (Z.compare_antisym e1 e2). destruct (e1 ?= e2); reflexivity.
Qed.

Lemma lex_cmp_lt a b : lex_cmp a b = Lt ↔ lex_lt a b.
Proof.
  unfold lex_cmp, lex_lt.
  destruct (Z.compare_spec a.1.1 b.1.1), (Z.compare_spec a.1.2 b.1.2),
    (Z.compare_spec a.2 b.2);
    split; intros; try discriminate; try reflexivity; lia.
Qed.

Lemma lex_cmp_eq a b : lex_cmp a b = Eq ↔ a = b.
Proof.
  unfold lex_cmp. destruct a as [[a1 a2] a3], b as [[b1 b2] b3]; cbn.
  destruct (Z.compare_spec a1 b1), (Z.compare_spec a2 b2), (Z.compare_spec a3 b3);
    split; intros; try discriminate; try reflexivity; try (simplify_eq; lia).
  by subst.
Qed.

Lemma ltb_key a b :
  F64.ltb a b = true ↔ ∃ ka kb, key a = Some ka ∧ key b = Some kb ∧ lex_lt ka kb.
Proof.
  unfold F64.ltb, SFltb. rewrite compare_key.
  destruct (key a) as [ka|], (key b) as [kb|]; split.
  all: try (intros (? & ? & ? & ? & ?); discriminate).
  all: try discriminate.
  - intros H. exists ka, kb. repeat split. apply lex_cmp_lt.
    by destruct (lex_cmp ka kb).
  - intros (? & ? & ? & ? & H). simplify_eq. apply lex_cmp_lt in H. by rewrite H.
Qed.

Lemma eqb_key a b :
  F64.eqb a b = true ↔ ∃ k, key a = Some k ∧ key b = Some k.
Proof.
  unfold F64.eqb, SFeqb. rewrite compare_key.
  destruct (key a) as [ka|], (key b) as [kb|]; split.
  all: try (intros (? & ? & ?); discriminate).
  all: try discriminate.
  - intros H. exists ka. split; [done|]. f_equal. symmetry. apply lex_cmp_eq.
    by destruct (lex_cmp ka kb).
  - intros (? & ? & ?). simplify_eq.
    by rewrite (proj2 (lex_cmp_eq _ _) eq_refl).
Qed.

Lemma leb_key a b :
  F64.leb a b = true ↔
  ∃ ka kb, key a = Some ka ∧ key b = Some kb ∧ (lex_lt ka kb ∨ ka = kb).
Proof.
  unfold F64.leb, SFleb. rewrite compare_key.
  destruct (key a) as [ka|], (key b) as [kb|]; split.
  all: try (intros (? & ? & ? & ? & ?); discriminate).
  all: try discriminate.
  - intros H. exists ka, kb. repeat split.
    destruct (lex_cmp ka kb) eqn:E; try discriminate.
    + right. by apply lex_cmp_eq.
    + left. by apply lex_cmp_lt.
  - intros (? & ? & ? & ? & [H|H]); simplify_eq.
    + apply lex_cmp_lt in H. by rewrite H.
    + by rewrite (proj2 (lex_cmp_eq _ _) eq_refl).
Qed.

Lemma lex_lt_trans a b c : lex_lt a b → lex_lt b c → lex_lt a c.
Proof. unfold lex_lt. lia. Qed.

Lemma lex_lt_irrefl a : ¬ lex_lt a a.
Proof. unfold lex_lt. lia. Qed.

(** [min(hi, max(lo, x))] is [x] clamped into [[lo, hi]] whenever
    [lo <= hi], also when [x] is not a number. *)
Lemma py_min_max_clamped lo hi x :
  F64.leb lo hi = true → clamped_into lo hi x (py_min hi (py_max lo x)).
Proof.
  intros Hle. apply leb_key in Hle as (kl & kh & Hkl & Hkh & Hlh).
  assert (Hnlt : ¬ lex_lt kh kl).
  { intros ?. destruct Hlh; [eapply lex_lt_irrefl, lex_lt_trans; eauto|].
    subst. by eapply lex_lt_irrefl. }
  unfold clamped_into, py_min, py_max.
  destruct (F64.ltb lo x) eqn:E1.
  - apply ltb_key in E1 as (? & kx & ? & Hkx & Hlx). simplify_eq.
    destruct (F64.ltb x hi) eqn:E2.
    + apply ltb_key in E2 as (? & ? & ? & ? & Hxh). simplify_eq.
      repeat split.
      * apply leb_key. eauto 10.
      * apply leb_key. eauto 10.
      * intros H. apply ltb_key in H as (? & ? & ? & ? & H). simplify_eq.
        exfalso. eapply lex_lt_irrefl, lex_lt_trans; eauto.
      * intros H. apply ltb_key in H as (? & ? & ? & ? & H). simplify_eq.
        exfalso. eapply lex_lt_irrefl, lex_lt_trans; eauto.
      * intros _ _. apply eqb_key. eauto.
    + assert (Hxh : ¬ lex_lt kx kh).
      { intros ?. assert (F64.ltb x hi = true) by (apply ltb_key; eauto 10).
        congruence. }
      repeat split.
      * apply leb_key. eauto 10.
      * apply leb_key. eauto 10.
      * intros H. apply ltb_key in H as (? & ? & ? & ? & H). simplify_eq.
        exfalso. eapply lex_lt_irrefl, lex_lt_trans; eauto.
      * intros _. apply eqb_key. eauto.
      * intros _ H. apply leb_key in H as (? & ? & ? & ? & H). simplify_eq.
        apply eqb_key. destruct H; [done|]. subst. eauto.
  - assert (Hlx : ∀ kx, key x = Some kx → ¬ lex_lt kl kx).
    { intros kx ? ?. assert (F64.ltb lo x = true) by (apply ltb_key; eauto 10).
      congruence. }
    destruct (F64.ltb lo hi) eqn:E2.
    + apply ltb_key in E2 as (? & ? & ? & ? & Hlh'). simplify_eq.
      repeat split.
      * apply leb_key. eauto 10.
      * apply leb_key. eauto 10.
      * intros _. apply eqb_key. eauto.
      * intros H. apply ltb_key in H as (? & kx & ? & ? & H). simplify_eq.
        exfalso. eapply Hlx; eauto. eapply lex_lt_trans; eauto.
      * intros H _. apply leb_key in H as (? & kx & ? & ? & H). simplify_eq.
        apply eqb_key. destruct H as [H|H]; [by apply Hlx in H|]. subst. eauto.
    + assert (kl = kh).
      { destruct Hlh; [|done]. exfalso.
        assert (F64.ltb lo hi = true) by (apply ltb_key; eauto 10). congruence. }
      subst. repeat split.
      * apply leb_key. eauto 10.
      * apply leb_key. eauto 10.
      * intros _. apply eqb_key. eauto.
      * intros _. apply eqb_key. eauto.
      * intros H _. apply leb_key in H as (? & kx & ? & ? & H). simplify_eq.
        apply eqb_key. destruct H as [H|H]; [by apply Hlx in H|]. subst. eauto.
Qed.

(** ** Dictionaries and runs *)

Lemma dget_insert_eq (d : gmap symbol Z) s v : dget (<[s := v]> d) s = v.
Proof. unfold dget. by rewrite lookup_insert_eq. Qed.

Lemma dget_insert_ne (d : gmap symbol Z) s s' v :
  s ≠ s' → dget (<[s := v]> d) s' = dget d s'.
Proof. intros. unfold dget. by rewrite lookup_insert_ne. Qed.

Lemma quiet_refl sym w : quiet sym w w.
Proof. split; [done|]. exists []. by rewrite app_nil_r. Qed.

Lemma quiet_trans sym w1 w2 w3 :
  quiet sym w1 w2 → quiet sym w2 w3 → quiet sym w1 w3.
Proof.
  intros [Hv1 (l1 & He1 & Hl1)] [Hv2 (l2 & He2 & Hl2)]. split.
  - congruence.
  - exists (l1 ++ l2). rewrite He2, He1, app_assoc. split; [done|].
    by apply Forall_app.
Qed.

Lemma emitted_since_app w w' l :
  emitted w' = emitted w ++ l → emitted_since w w' = l.
Proof. intros H. unfold emitted_since. rewrite H. by rewrite drop_app_length. Qed.

Lemma commands_for_app sym l1 l2 :
  commands_for sym (l1 ++ l2) = commands_for sym l1 ++ commands_for sym l2.
Proof. apply filter_app. Qed.

Lemma commands_for_none sym l :
  Forall (fun c => command_symbol c ≠ sym) l → commands_for sym l = [].
Proof.
  induction 1 as [|c l Hc _ IH]; [done|].
  unfold commands_for in *. rewrite filter_cons.
  destruct (decide (command_symbol c = sym)); [done|]. exact IH.
Qed.

Lemma commands_for_all sym l :
  Forall (fun c => command_symbol c = sym) l → commands_for sym l = l.
Proof.
  induction 1 as [|c l Hc _ IH]; [done|].
  unfold commands_for in *. rewrite filter_cons.
  destruct (decide (command_symbol c = sym)); [|done]. by rewrite IH.
Qed.

Lemma quiet_commands sym w w' :
  quiet sym w w' → commands_for sym (emitted_since w w') = [].
Proof.
  intros [_ (l & He & Hl)]. rewrite (emitted_since_app _ _ _ He).
  by apply commands_for_none.
Qed.

Section Properties.

Variable L : pylib.
Variable C : config.

Local Opaque two epsilon F64.div.

(** Symbolic execution of the loop body: unfold the statements, then
    split on every test in the order in which the body meets them. *)
Ltac exec :=
  unfold eval_symbol, emit, print, append_command, read_last_action_trade,
    bind, lift, modify, gets, ret, config_get;
  cbn.

Ltac split_step :=
  match goal with
  | |- context [match compute_stats ?l ?c ?p with _ => _ end] =>
      destruct (compute_stats l c p) eqn:?
  | |- context [if ws_is_failing ?st then _ else _] =>
      destruct (ws_is_failing st) eqn:?
  | |- context [if negb (?a <=? ?b) then _ else _] => destruct (a <=? b) eqn:?
  | |- context [if ?a <=? ?b then _ else _] => destruct (a <=? b) eqn:?
  | |- context [if String.eqb ?a ?b then _ else _] =>
      destruct (String.eqb a b) eqn:?
  | |- context [match command_file ?w with _ => _ end] =>
      destruct (command_file w) eqn:?
  | |- context [match max_weight ?c with _ => _ end] =>
      destruct (max_weight c) eqn:?
  | |- context [match min_weight ?c with _ => _ end] =>
      destruct (min_weight c) eqn:?
  end; cbn; rewrite ?dget_insert_eq.

Ltac cases := exec; repeat split_step.

Lemma eval_symbol_stats_raise n s pnls w e :
  compute_stats L C pnls = Raise e →
  eval_symbol L C n s pnls w = (w, Raise e).
Proof. intros H. exec. by rewrite H. Qed.

(** The loop body leaves the mode and the sockets alone. *)
Lemma eval_symbol_env n s pnls w :
  let w' := (eval_symbol L C n s pnls w).1 in
  MODE w' = MODE w ∧ CLIENTS w' = CLIENTS w ∧
  connected w' = connected w ∧ delivered w' = delivered w.
Proof. cases; done. Qed.

(** Its calls to [emit]: all for its own symbol, and at most one when
    both thresholds are positive. *)
Lemma eval_symbol_emits n s pnls w :
  ∃ l, emitted (eval_symbol L C n s pnls w).1 = emitted w ++ l
       ∧ Forall (fun c => command_symbol c = s) l
       ∧ (1 ≤ DISABLE_WINDOWS C → 1 ≤ ENABLE_WINDOWS C → (length l ≤ 1)%nat).
Proof.
  cases.
  all: try (exists []; rewrite app_nil_r; repeat split; auto; fail).
  all: try (eexists [_]; split; [reflexivity|]; split;
            [repeat constructor| auto]; fail).
  all: try (eexists [_; _]; split; [rewrite <- app_assoc; reflexivity|];
            split; [repeat constructor| intros; exfalso; lia]; fail).
Qed.

(** It does not touch what the globals hold for another symbol. *)
Lemma eval_symbol_view_other n s pnls w s' :
  s ≠ s' → view s' (eval_symbol L C n s pnls w).1 = view s' w.
Proof.
  intros Hne. cases.
  all: unfold view; cbn; rewrite ?dget_insert_ne, ?lookup_insert_ne by done;
    reflexivity.
Qed.

Lemma eval_symbol_quiet n s pnls w s' :
  s ≠ s' → quiet s' w (eval_symbol L C n s pnls w).1.
Proof.
  intros Hne. split; [by apply eval_symbol_view_other|].
  destruct (eval_symbol_emits n s pnls w) as (l & He & Hl & _).
  exists l. split; [done|]. eapply Forall_impl; [exact Hl|].
  intros c Hc. cbn in Hc. congruence.
Qed.

(** Under cooldown the body emits nothing and cannot raise; the
    counters take their step 1 values and the snapshot entry is
    rewritten. *)
Lemma eval_symbol_cooldown n s pnls w st :
  compute_stats L C pnls = Ok st →
  n - dget (last_action_trade w) s < COOLDOWN C →
  let r := eval_symbol L C n s pnls w in
  let c1 := step1 (ws_is_failing st) (dget (fail_counts w) s) (dget (pass_counts w) s) in
  r.2 = Ok tt ∧
  emitted r.1 = emitted w ∧ stdout r.1 = stdout w ∧
  command_file r.1 = command_file w ∧
  dget (fail_counts r.1) s = c1.1 ∧
  dget (pass_counts r.1) s = c1.2 ∧
  dget (last_action_trade r.1) s = dget (last_action_trade w) s ∧
  STATE r.1 !! s = Some {|
    edge := py_round L (ws_edge st) 4;
    confidence := py_round L (ws_conf st) 4;
    survival := py_round L (ws_survival st) 4;
    fail_count := c1.1;
    pass_count := c1.2;
    trades_since_action := n - dget (last_action_trade w) s;
    can_act := false;
    mode := MODE w;
    status := if negb (ws_is_failing st) then "PASS" else "WARN" |}.
Proof.
  intros Hst Hcool. exec. rewrite Hst. cbn.
  assert ((COOLDOWN C <=? n - dget (last_action_trade w) s) = false) as ->
    by lia.
  unfold step1. destruct (ws_is_failing st); cbn;
    rewrite ?dget_insert_eq, ?lookup_insert_eq; repeat split; reflexivity.
Qed.

(** Without a successful [compute_stats], or under cooldown, no call
    to [emit]. *)
Lemma eval_symbol_cooldown_silent n s pnls w :
  n - dget (last_action_trade w) s < COOLDOWN C →
  emitted (eval_symbol L C n s pnls w).1 = emitted w.
Proof.
  intros Hcool. destruct (compute_stats L C pnls) as [st|e] eqn:Hst.
  - by apply (eval_symbol_cooldown n s pnls w st).
  - by rewrite (eval_symbol_stats_raise _ _ _ _ _ Hst).
Qed.


(** In OBSERVE mode the body leaves the command file alone. *)
Lemma eval_symbol_observe n s pnls w :
  MODE w = "OBSERVE" →
  command_file (eval_symbol L C n s pnls w).1 = command_file w.
Proof.
  intros Hm. cases; try done.
  all: rewrite Hm in *; discriminate.
Qed.



(** Every ENABLE command carries the clamped half confidence, rounded
    to three decimals. *)
Lemma eval_symbol_enable n s pnls w c :
  c ∈ emitted_since w (eval_symbol L C n s pnls w).1 → is_enable c = true →
  ∃ st hi lo,
    compute_stats L C pnls = Ok st ∧
    max_weight C = Some hi ∧ min_weight C = Some lo ∧
    c = ENABLE_ENGINE s
          (py_round L (py_min hi (py_max lo (F64.div (ws_conf st) two))) 3).
Proof.
  cases.
  all: try (erewrite emitted_since_app by (cbn; symmetry; apply app_nil_r);
            intros H; by apply elem_of_nil in H).
  all: try (erewrite emitted_since_app by (cbn; reflexivity)).
  all: try (erewrite emitted_since_app by (cbn; rewrite <- app_assoc; reflexivity)).
  all: intros Hin Hen; cbn in Hin;
    repeat (apply elem_of_cons in Hin as [-> | Hin]; [try discriminate Hen|]);
    try (by apply elem_of_nil in Hin).
  all: eauto 10.
Qed.


(** ** Buckets *)

Lemma bucket_keys_append sym x b :
  bucket_keys (bucket_append sym x b) = bucket_keys b.
Proof.
  unfold bucket_keys. induction b as [|[s l] r IH]; [done|]. cbn.
  destruct (decide (s = sym)); cbn; [done|]. by rewrite IH.
Qed.

Lemma ensure_bucket_nodup sym b :
  NoDup (bucket_keys b) → NoDup (bucket_keys (ensure_bucket sym b)).
Proof.
  intros H. unfold ensure_bucket. destruct (decide (sym ∈ bucket_keys b)); [done|].
  unfold bucket_keys in *. rewrite map_app. cbn.
  apply NoDup_app. split; [done|]. split.
  - intros x Hx Hx'. apply list_elem_of_singleton in Hx'. by subst.
  - apply NoDup_singleton.
Qed.

Lemma fill_buckets_nodup rows b b' :
  NoDup (bucket_keys b) → fill_buckets L rows b = Ok b' → NoDup (bucket_keys b').
Proof.
  revert b. induction rows as [|t rest IH]; intros b Hb H; cbn in H.
  - by simplify_eq.
  - destruct (getitem t "symbol") as [sym|]; [|done]. cbn in H.
    destruct (getitem t "total_pnl") as [cell|]; [|done]. cbn in H.
    destruct (float_of_cell L cell) as [x|]; [|done]. cbn in H.
    apply IH in H; [done|]. rewrite bucket_keys_append.
    by apply ensure_bucket_nodup.
Qed.

(** The first loop raises as soon as one row cannot be read. *)
Lemma fill_buckets_raise rows b :
  Exists (fun t => is_raise (parse_row L t) = true) rows →
  ∃ e, fill_buckets L rows b = Raise e.
Proof.
  intros H. revert b. induction H as [t rest Ht|t rest _ IH]; intros b; cbn.
  - unfold parse_row in Ht.
    destruct (getitem t "symbol") as [sym|]; cbn in *; [|eauto].
    destruct (getitem t "total_pnl") as [cell|]; cbn in *; [|eauto].
    destruct (float_of_cell L cell) as [x|]; cbn in *; [done|eauto].
  - destruct (getitem t "symbol") as [sym|]; cbn; [|eauto].
    destruct (getitem t "total_pnl") as [cell|]; cbn; [|eauto].
    destruct (float_of_cell L cell) as [x|]; cbn; [|eauto].
    apply IH.
Qed.

Lemma split_at_symbol_some sym b pre pnls :
  split_at_symbol sym b = Some (pre, pnls) →
  ∃ post, b = pre ++ (sym, pnls) :: post ∧ sym ∉ bucket_keys pre.
Proof.
  revert pre. induction b as [|[s l] r IH]; intros pre H; cbn in H; [done|].
  destruct (decide (s = sym)) as [->|Hne].
  - simplify_eq. exists r. split; [done|]. apply not_elem_of_nil.
  - destruct (split_at_symbol sym r) as [[pre' pnls']|]; [|done].
    simplify_eq. destruct (IH pre' eq_refl) as (post & -> & Hpre).
    exists post. split; [done|]. cbn. apply not_elem_of_cons. done.
Qed.

Lemma split_at_symbol_none sym b :
  split_at_symbol sym b = None → sym ∉ bucket_keys b.
Proof.
  induction b as [|[s l] r IH]; intros H; cbn in *.
  - apply not_elem_of_nil.
  - destruct (decide (s = sym)); [done|].
    destruct (split_at_symbol sym r) as [[? ?]|]; [done|].
    apply not_elem_of_cons. split; [done|]. by apply IH.
Qed.

(** ** One tick, seen from one symbol *)

Lemma eval_buckets_app n b1 b2 w :
  eval_buckets L C n (b1 ++ b2) w =
    match eval_buckets L C n b1 w with
    | (w1, Ok _) => eval_buckets L C n b2 w1
    | (w1, Raise e) => (w1, Raise e)
    end.
Proof.
  revert w. induction b1 as [|[s l] r IH]; intros w; cbn; [done|].
  unfold bind. destruct (eval_symbol L C n s l w) as [w1 [[]|e]]; [|done].
  apply IH.
Qed.

Lemma eval_buckets_quiet n b w sym :
  sym ∉ bucket_keys b → quiet sym w (eval_buckets L C n b w).1.
Proof.
  revert w. induction b as [|[s l] r IH]; intros w Hn; cbn.
  - apply quiet_refl.
  - cbn in Hn. apply not_elem_of_cons in Hn as [Hne Hn].
    unfold bind.
    pose proof (eval_symbol_quiet n s l w sym (not_eq_sym Hne)) as Hq.
    destruct (eval_symbol L C n s l w) as [w1 [[]|e]]; cbn in *; [|done].
    eapply quiet_trans; [exact Hq|]. by apply IH.
Qed.

Lemma eval_buckets_env n b w :
  let w' := (eval_buckets L C n b w).1 in
  MODE w' = MODE w ∧ CLIENTS w' = CLIENTS w ∧
  connected w' = connected w ∧ delivered w' = delivered w.
Proof.
  revert w. induction b as [|[s l] r IH]; intros w; cbn; [done|].
  unfold bind. pose proof (eval_symbol_env n s l w) as He.
  destruct (eval_symbol L C n s l w) as [w1 [[]|e]]; cbn in *; [|done].
  specialize (IH w1). cbn in IH. intuition congruence.
Qed.

Lemma eval_buckets_observe n b w :
  MODE w = "OBSERVE" →
  command_file (eval_buckets L C n b w).1 = command_file w.
Proof.
  revert w. induction b as [|[s l] r IH]; intros w Hm; cbn; [done|].
  unfold bind. pose proof (eval_symbol_observe n s l w Hm) as Hf.
  pose proof (eval_symbol_env n s l w) as (Hm' & _).
  destruct (eval_symbol L C n s l w) as [w1 [[]|e]]; cbn in *; [|done].
  rewrite IH; [done|congruence].
Qed.

(** What a tick does to [sym]: nothing, or the loop body once, with
    only other symbols evaluated before and after it. *)
Lemma analyze_for_symbol src w sym :
  let w' := (analyze L C src w).1 in
  quiet sym w w' ∨
  ∃ w1 pnls,
    quiet sym w w1 ∧
    quiet sym (eval_symbol L C (tick_count src) sym pnls w1).1 w' ∧
    (∀ st, evaluated_at L C sym src w = Some st → compute_stats L C pnls = Ok st).
Proof.
  unfold analyze, evaluated_at, window_buckets. fold (tick_count src).
  destruct (tick_count src <? WINDOW C); [left; apply quiet_refl|].
  unfold bind, lift.
  destruct (fill_buckets L _ []) as [b|e] eqn:Hb; [|left; apply quiet_refl].
  apply fill_buckets_nodup in Hb; [|apply NoDup_nil_2].
  destruct (split_at_symbol sym b) as [[pre pnls]|] eqn:Hs.
  - apply split_at_symbol_some in Hs as (post & -> & Hpre).
    assert (sym ∉ bucket_keys post) as Hpost.
    { unfold bucket_keys in Hb. rewrite map_app in Hb. cbn in Hb.
      apply NoDup_app in Hb as (_ & _ & Hb). apply NoDup_cons in Hb. tauto. }
    rewrite eval_buckets_app.
    pose proof (eval_buckets_quiet (tick_count src) pre w sym Hpre) as Hq1.
    destruct (eval_buckets L C (tick_count src) pre w) as [w1 [[]|e]];
      cbn in Hq1; [|by left].
    right. exists w1, pnls. split; [done|]. cbn. unfold bind. split.
    + destruct (eval_symbol L C (tick_count src) sym pnls w1) as [w2 [[]|e]];
        cbn; [|apply quiet_refl].
      by apply eval_buckets_quiet.
    + intros st. destruct (compute_stats L C pnls); congruence.
  - left. apply eval_buckets_quiet. by apply split_at_symbol_none.
Qed.

(** When the tick evaluates [sym], it is the second case: the gate of
    [sym] runs once, from a world that holds for [sym] what [w] holds,
    and the commands of the tick for [sym] are those of that run. *)
Lemma analyze_evaluated src w sym st :
  evaluated_at L C sym src w = Some st →
  ∃ w1 pnls,
    let r := eval_symbol L C (tick_count src) sym pnls w1 in
    compute_stats L C pnls = Ok st ∧
    MODE w1 = MODE w ∧
    view sym w1 = view sym w ∧
    view sym (analyze L C src w).1 = view sym r.1 ∧
    commands_for sym (emitted_since w (analyze L C src w).1) =
      emitted_since w1 r.1.
Proof.
  unfold analyze, evaluated_at, window_buckets. fold (tick_count src).
  destruct (tick_count src <? WINDOW C); [done|].
  unfold bind, lift.
  destruct (fill_buckets L _ []) as [b|e] eqn:Hb; [|done].
  apply fill_buckets_nodup in Hb; [|apply NoDup_nil_2].
  destruct (split_at_symbol sym b) as [[pre pnls]|] eqn:Hs; [|done].
  apply split_at_symbol_some in Hs as (post & -> & Hpre).
  assert (sym ∉ bucket_keys post) as Hpost.
  { unfold bucket_keys in Hb. rewrite map_app in Hb. cbn in Hb.
    apply NoDup_app in Hb as (_ & _ & Hb). apply NoDup_cons in Hb. tauto. }
  rewrite eval_buckets_app.
  pose proof (eval_buckets_quiet (tick_count src) pre w sym Hpre) as Hq1.
  pose proof (eval_buckets_env (tick_count src) pre w) as (Hm1 & _).
  destruct (eval_buckets L C (tick_count src) pre w) as [w1 [[]|e]];
    cbn in Hq1, Hm1; [|done].
  destruct (compute_stats L C pnls) as [st'|] eqn:Hst; [|done].
  intros [= ->]. exists w1, pnls. cbn zeta.
  split; [done|]. split; [done|]. split; [apply Hq1|].
  cbn [eval_buckets]. unfold bind.
  pose proof (eval_symbol_emits (tick_count src) sym pnls w1) as (l1 & H1 & Hl1 & _).
  pose proof (eval_buckets_quiet (tick_count src) post
                (eval_symbol L C (tick_count src) sym pnls w1).1 sym Hpost) as Hq2.
  destruct Hq1 as [_ (l0 & H0 & Hl0)].
  rewrite (emitted_since_app _ _ _ H1).
  destruct (eval_symbol L C (tick_count src) sym pnls w1) as [w2 [[]|e]];
    cbn in *.
  - destruct Hq2 as [Hv2 (l2 & H2 & Hl2)]. split; [done|].
    erewrite emitted_since_app
      by (rewrite H2, H1, H0, <- !app_assoc; reflexivity).
    rewrite !commands_for_app.
    rewrite (commands_for_none _ _ Hl0), (commands_for_none _ _ Hl2).
    rewrite (commands_for_all _ _ Hl1). by rewrite app_nil_r.
  - split; [done|].
    erewrite emitted_since_app by (rewrite H1, H0, <- !app_assoc; reflexivity).
    rewrite !commands_for_app.
    rewrite (commands_for_none _ _ Hl0), (commands_for_all _ _ Hl1). done.
Qed.

Lemma analyze_env src w :
  let w' := (analyze L C src w).1 in
  MODE w' = MODE w ∧ CLIENTS w' = CLIENTS w ∧
  connected w' = connected w ∧ delivered w' = delivered w.
Proof.
  unfold analyze. destruct (_ <? WINDOW C); [done|].
  unfold bind, lift. destruct (fill_buckets L _ []) as [b|e]; [|done].
  apply eval_buckets_env.
Qed.


(** The commands of a tick for one symbol are those of its loop body. *)
Lemma analyze_commands_for src w sym :
  commands_for sym (emitted_since w (analyze L C src w).1) = [] ∨
  ∃ w1 pnls,
    quiet sym w w1 ∧
    commands_for sym (emitted_since w (analyze L C src w).1) =
      emitted_since w1 (eval_symbol L C (tick_count src) sym pnls w1).1.
Proof.
  destruct (analyze_for_symbol src w sym) as [H|H].
  - left. by apply quiet_commands.
  - right. destruct H as (w1 & pnls & Hq0 & Hq2 & _).
    exists w1, pnls. split; [done|].
    destruct Hq0 as [_ (l0 & H0 & Hl0)]. destruct Hq2 as [_ (l2 & H2 & Hl2)].
    destruct (eval_symbol_emits (tick_count src) sym pnls w1) as (l1 & H1 & Hl1 & _).
    rewrite (emitted_since_app _ _ _ H1).
    erewrite emitted_since_app
      by (rewrite H2, H1, H0, <- !app_assoc; reflexivity).
    rewrite !commands_for_app.
    rewrite (commands_for_none _ _ Hl0), (commands_for_none _ _ Hl2).
    rewrite (commands_for_all _ _ Hl1). by rewrite app_nil_r.
Qed.

(** ** Broadcast *)

Lemma broadcast_fold data l w :
  let w' :=
    foldl (fun w ws =>
             if decide (ws ∈ connected w)
             then set_delivered (fun d => d ++ [(ws, data)]) w
             else set_CLIENTS (fun s => s ∖ {[ws]}) w) w l in
  same_governor_state w w' ∧ connected w' = connected w ∧
  delivered w' =
    delivered w ++ map (fun c => (c, data)) (filter (fun c => c ∈ connected w) l).
Proof.
  revert w. induction l as [|c l IH]; intros w.
  - cbn. unfold same_governor_state. by rewrite app_nil_r.
  - rewrite filter_cons. cbn [foldl]. destruct (decide (c ∈ connected w)).
    + destruct (IH (set_delivered (fun d => d ++ [(c, data)]) w))
        as (Hs & Hc & Hd).
      cbn in *. split; [exact Hs|]. split; [exact Hc|].
      rewrite Hd. by rewrite <- app_assoc.
    + destruct (IH (set_CLIENTS (fun s => s ∖ {[c]}) w)) as (Hs & Hc & Hd).
      cbn in *. done.
Qed.

Lemma broadcast_spec data w :
  let r := broadcast data w in
  r.2 = Ok tt ∧ same_governor_state w r.1 ∧
  delivered r.1 =
    delivered w ++
    map (fun c => (c, data))
        (filter (fun c => c ∈ connected w) (elements (CLIENTS w))).
Proof.
  unfold broadcast. cbn. split; [done|].
  destruct (broadcast_fold data (elements (CLIENTS w)) w) as (? & ? & ?). done.
Qed.

(** ** The invariant of the counters *)



(** ** Several ticks *)


Lemma run_ticks_observe srcs w :
  MODE w = "OBSERVE" →
  MODE (run_ticks L C srcs w) = "OBSERVE" ∧
  command_file (run_ticks L C srcs w) = command_file w.
Proof.
  revert w. induction srcs as [|src r IH]; intros w Hm; cbn; [done|].
  pose proof (analyze_env src w) as (Hm' & _). cbn in Hm'.
  assert (command_file (analyze L C src w).1 = command_file w) as Hf.
  { unfold analyze. destruct (_ <? WINDOW C); [done|].
    unfold bind, lift. destruct (fill_buckets L _ []) as [b|e]; [|done].
    by apply eval_buckets_observe. }
  destruct (IH (analyze L C src w).1) as (? & ?); [congruence|].
  split; congruence.
Qed.


Lemma emitted_since_refl w : emitted_since w w = [].
Proof. unfold emitted_since. apply drop_all. Qed.

Lemma emitted_since_trans w w1 w2 l1 l2 :
  emitted w1 = emitted w ++ l1 → emitted w2 = emitted w1 ++ l2 →
  emitted_since w w2 = emitted_since w w1 ++ emitted_since w1 w2.
Proof.
  intros H1 H2. rewrite (emitted_since_app _ _ _ H1), (emitted_since_app _ _ _ H2).
  apply emitted_since_app. by rewrite H2, H1, app_assoc.
Qed.

Lemma eval_buckets_grows n b w :
  ∃ l, emitted (eval_buckets L C n b w).1 = emitted w ++ l.
Proof.
  revert w. induction b as [|[s p] r IH]; intros w; cbn [eval_buckets].
  - exists []. by rewrite app_nil_r.
  - unfold bind. destruct (eval_symbol_emits n s p w) as (l1 & H1 & _).
    destruct (eval_symbol L C n s p w) as [w1 [[]|e]]; cbn in *; [|eauto].
    destruct (IH w1) as (l2 & H2). exists (l1 ++ l2).
    by rewrite H2, H1, app_assoc.
Qed.

(** Every ENABLE command of the second loop comes from one bucket and
    carries the weight computed from the confidence of that bucket. *)
Lemma eval_buckets_enable n b w c :
  c ∈ emitted_since w (eval_buckets L C n b w).1 → is_enable c = true →
  ∃ s pnls st hi lo,
    (s, pnls) ∈ b ∧ compute_stats L C pnls = Ok st ∧
    max_weight C = Some hi ∧ min_weight C = Some lo ∧
    c = ENABLE_ENGINE s
          (py_round L (py_min hi (py_max lo (F64.div (ws_conf st) two))) 3).
Proof.
  revert w. induction b as [|[s p] r IH]; intros w; cbn [eval_buckets].
  - cbn. rewrite emitted_since_refl. intros H. by apply elem_of_nil in H.
  - unfold bind. intros Hin Hen.
    destruct (eval_symbol_emits n s p w) as (l1 & H1 & _).
    pose proof (eval_symbol_enable n s p w c) as He.
    destruct (eval_symbol L C n s p w) as [w1 [[]|e]]; cbn in *.
    + destruct (eval_buckets_grows n r w1) as (l2 & H2).
      rewrite (emitted_since_trans _ _ _ _ _ H1 H2) in Hin.
      apply elem_of_app in Hin as [Hin|Hin].
      * destruct (He Hin Hen) as (st & hi & lo & ? & ? & ? & ?).
        exists s, p, st, hi, lo. repeat split; try done. apply elem_of_cons. by left.
      * destruct (IH w1 Hin Hen) as (s' & p' & st & hi & lo & ? & ?).
        exists s', p', st, hi, lo. split; [|done]. apply elem_of_cons. by right.
    + destruct (He Hin Hen) as (st & hi & lo & ? & ? & ? & ?).
      exists s, p, st, hi, lo. repeat split; try done. apply elem_of_cons. by left.
Qed.

(** In OBSERVE mode [emit] prints and returns. *)
Lemma emit_observe cmd w :
  MODE w = "OBSERVE" →
  let r := emit cmd w in
  r.2 = Ok tt ∧ MODE r.1 = MODE w ∧ command_file r.1 = command_file w ∧
  stdout r.1 = stdout w ++ [Would_execute cmd].
Proof.
  intros Hm. unfold emit, bind, modify, gets, print. cbn. rewrite Hm. cbn. done.
Qed.

Lemma emit_all_observe cmds w :
  MODE w = "OBSERVE" →
  (emit_all cmds w).2 = Ok tt ∧
  command_file (emit_all cmds w).1 = command_file w ∧
  stdout (emit_all cmds w).1 = stdout w ++ map Would_execute cmds.
Proof.
  revert w. induction cmds as [|c r IH]; intros w Hm; cbn [emit_all].
  - cbn. by rewrite app_nil_r.
  - unfold bind. destruct (emit_observe c w Hm) as (Hr & Hm' & Hf & Ho).
    destruct (emit c w) as [w1 r1]. cbn in *. subst r1.
    destruct (IH w1) as (? & ? & Hout); [congruence|].
    repeat split; [done|congruence|].
    rewrite Hout, Ho, <- app_assoc. done.
Qed.

(** Outside OBSERVE mode, with a command file that cannot be opened,
    [emit] raises. *)
Lemma emit_locked cmd w :
  MODE w ≠ "OBSERVE" → command_file w = None → (emit cmd w).2 = Raise OSError.
Proof.
  intros Hm Hf. unfold emit, bind, modify, gets, print, append_command. cbn.
  destruct (String.eqb_spec (MODE w) "OBSERVE"); [done|].
  destruct (String.eqb (MODE w) "ADVISE"); cbn; by rewrite Hf.
Qed.

End Properties.

(** * The statements of the specification *)

Import Scenario.




(** C2 (as amended). A tick with fewer trade records than the window
    leaves the counters, the snapshot state, the outputs of [emit] and
    the command file as they were, and emits no command; the handler
    still broadcasts the unchanged snapshot to every connected
    subscriber and goes on. *)
Theorem C2_short_window_skips_analysis (L : pylib) (C : config) (src : source) (w : world) (self : nat) :
  tick_count src < WINDOW C →
  analyze L C src w = (w, Ok tt) ∧
  let r := ws_iteration L C self src w in
  r.2 = Continue ∧ same_governor_state w r.1 ∧
  delivered r.1 =
    delivered w ++
    map (fun c => (c, (MODE w, STATE w)))
        (filter (fun c => c ∈ connected w) (elements (CLIENTS w))).
Proof.
  intros Hlt.
  assert (analyze L C src w = (w, Ok tt)) as Ha.
  { unfold analyze. fold (tick_count src).
    assert ((tick_count src <? WINDOW C) = true) as -> by lia. done. }
  split; [exact Ha|]. unfold ws_iteration, bind, gets. rewrite Ha.
  destruct (broadcast_spec (MODE w, STATE w) w) as (Hr & Hs & Hd).
  destruct (broadcast (MODE w, STATE w) w) as [w2 r2]. cbn in *. subst r2.
  done.
Qed.

Lemma C2_short_window_skips_analysis_witness :
  tick_count short < WINDOW cfg ∧
  analyze CPython.lib cfg short w_subscribed = (w_subscribed, Ok tt) ∧
  let r := ws_iteration CPython.lib cfg 1%nat short w_subscribed in
  r.2 = Continue ∧ same_governor_state w_subscribed r.1 ∧
  delivered r.1 =
    delivered w_subscribed ++
    map (fun c => (c, (MODE w_subscribed, STATE w_subscribed)))
        (filter (fun c => c ∈ connected w_subscribed)
                (elements (CLIENTS w_subscribed))).
Proof.
  assert (tick_count short < WINDOW cfg) as H by (vm_compute; reflexivity).
  split; [exact H|].
  exact (C2_short_window_skips_analysis CPython.lib cfg short w_subscribed 1%nat H).
Defined.

(** C2 as stated fails: on a skipped tick the subscriber still receives
    a snapshot. *)
Lemma C2_counterexample :
  tick_count short < WINDOW cfg ∧
  delivered w_subscribed = [] ∧
  delivered (ws_iteration CPython.lib cfg 1%nat short w_subscribed).1 =
    [(1%nat, ("OBSERVE", ∅))].
Proof. repeat split; vm_compute; reflexivity. Qed.

(** C3 (as amended). An error raised while evaluating one symbol ends
    the tick: [analyze] raises it with the globals as that evaluation
    left them, the symbols that come later in the window are not
    evaluated (their counters and snapshot entries are unchanged and no
    command is emitted for them), nothing is broadcast and the loop of
    the handler ends. A command-log append that fails in ADVISE or ACT
    mode is such an error: [emit] raises it instead of swallowing it. *)
Theorem C3_error_ends_the_tick (L : pylib) (C : config) (src : source) (w w1 : world)
    (pre post : buckets_t) (sym : symbol) (pnls : list float) (e : exn) :
  WINDOW C ≤ tick_count src →
  window_buckets L C src = Ok (pre ++ (sym, pnls) :: post) →
  eval_buckets L C (tick_count src) pre w = (w1, Ok tt) →
  (eval_symbol L C (tick_count src) sym pnls w1).2 = Raise e →
  analyze L C src w =
    ((eval_symbol L C (tick_count src) sym pnls w1).1, Raise e) ∧
  (∀ s', s' ∈ bucket_keys post → quiet s' w (analyze L C src w).1) ∧
  (∀ self, ∃ r,
      (ws_iteration L C self src w).2 = Exit r ∧
      delivered (ws_iteration L C self src w).1 = delivered w) ∧
  (∀ cmd w0, MODE w0 ≠ "OBSERVE" → command_file w0 = None →
             (emit cmd w0).2 = Raise OSError).
Proof.
  intros Hw Hb Hpre He.
  assert (analyze L C src w =
            ((eval_symbol L C (tick_count src) sym pnls w1).1, Raise e)) as Ha.
  { unfold analyze. fold (tick_count src).
    assert ((tick_count src <? WINDOW C) = false) as -> by lia.
    unfold bind, lift. unfold window_buckets in Hb. rewrite Hb.
    rewrite eval_buckets_app, Hpre. cbn [eval_buckets]. unfold bind.
    destruct (eval_symbol L C (tick_count src) sym pnls w1) as [w2 r2].
    cbn in He. by subst r2. }
  split; [exact Ha|]. split; [|split].
  - intros s' Hs'. rewrite Ha. cbn [fst].
    apply fill_buckets_nodup in Hb; [|apply NoDup_nil_2].
    unfold bucket_keys in Hb, Hs'. rewrite map_app in Hb. cbn in Hb.
    apply NoDup_app in Hb as (_ & Hdis & Hb). apply NoDup_cons in Hb as [Hne _].
    eapply quiet_trans.
    + pose proof (eval_buckets_quiet L C (tick_count src) pre w s') as Hq.
      rewrite Hpre in Hq. apply Hq. intros Hin.
      apply (Hdis s' Hin). apply elem_of_cons. by right.
    + apply eval_symbol_quiet. intros ->. by apply Hne.
  - intros self. unfold ws_iteration, bind. rewrite Ha.
    pose proof (analyze_env L C src w) as (_ & _ & _ & Hd).
    rewrite Ha in Hd. cbn in Hd.
    destruct (decide (self ∈ CLIENTS _)); eexists; split; try reflexivity;
      exact Hd.
  - intros cmd w0. apply emit_locked.
Qed.

Lemma C3_error_ends_the_tick_witness :
  let w1 := w_locked in
  let r := eval_symbol CPython.lib cfg_quick (tick_count pair) X [lit (-2) 0] w1 in
  analyze CPython.lib cfg_quick pair w_locked = (r.1, Raise OSError) ∧
  (∀ s', s' ∈ bucket_keys [(Y, [lit 3 0])] →
         quiet s' w_locked (analyze CPython.lib cfg_quick pair w_locked).1) ∧
  (∀ self, ∃ r,
      (ws_iteration CPython.lib cfg_quick self pair w_locked).2 = Exit r ∧
      delivered (ws_iteration CPython.lib cfg_quick self pair w_locked).1 =
        delivered w_locked) ∧
  (∀ cmd w0, MODE w0 ≠ "OBSERVE" → command_file w0 = None →
             (emit cmd w0).2 = Raise OSError).
Proof.
  apply (C3_error_ends_the_tick CPython.lib cfg_quick pair w_locked w_locked
           [] [(Y, [lit 3 0])] X [lit (-2) 0] OSError).
  - vm_compute. discriminate.
  - vm_compute. reflexivity.
  - reflexivity.
  - vm_compute. reflexivity.
Defined.

(** C3 as stated fails: in ACT mode with a command file that cannot be
    opened, the DISABLE of X raises out of [analyze]; Y, which is in the
    same window, is not evaluated in that tick, and the handler that ran
    the tick ends. *)
Lemma C3_counterexample :
  window_buckets CPython.lib cfg_quick pair =
    Ok [(X, [lit (-2) 0]); (Y, [lit 3 0])] ∧
  (analyze CPython.lib cfg_quick pair w_locked).2 = Raise OSError ∧
  view Y (analyze CPython.lib cfg_quick pair w_locked).1 = (0, 0, 0, None) ∧
  (ws_iteration CPython.lib cfg_quick 1%nat pair (ws_accept 1%nat w_locked)).2 =
    Exit (Ok tt).
Proof. repeat split; vm_compute; reflexivity. Qed.

(** C4 (as amended). When the trade-record source cannot be opened or
    read, the tick sees zero records and returns without raising and
    without touching anything. A record that was read but whose symbol
    or PnL is missing or not a number makes the tick raise from the
    first loop, before any counter or snapshot entry is written. *)
Theorem C4_unreadable_source_and_garbled_rows (L : pylib) (C : config) (w : world) :
  analyze L C Unreadable w = (w, Ok tt) ∧
  ∀ rows,
    WINDOW C ≤ Z.of_nat (length rows) →
    Exists (fun t => is_raise (parse_row L t) = true)
           (py_slice_from (- WINDOW C) rows) →
    ∃ e, analyze L C (Readable rows) w = (w, Raise e).
Proof.
  split.
  - unfold analyze. cbn [load_trades length].
    destruct (Z.of_nat 0 <? WINDOW C); [done|].
    unfold py_slice_from. rewrite drop_nil. done.
  - intros rows Hw Hex. unfold analyze. cbn [load_trades].
    assert ((Z.of_nat (length rows) <? WINDOW C) = false) as -> by lia.
    destruct (fill_buckets_raise L _ [] Hex) as (e & He).
    exists e. unfold bind, lift. by rewrite He.
Qed.

Lemma C4_unreadable_source_and_garbled_rows_witness :
  analyze CPython.lib cfg Unreadable w_act = (w_act, Ok tt) ∧
  ∃ e, analyze CPython.lib cfg garbled w_act = (w_act, Raise e).
Proof.
  destruct (C4_unreadable_source_and_garbled_rows CPython.lib cfg w_act)
    as (H1 & H2).
  split; [exact H1|].
  apply (H2 (replicate 20 (trade "X" "abc"))).
  - vm_compute. discriminate.
  - change (py_slice_from _ _) with (replicate 20 (trade "X" "abc")).
    apply Exists_cons_hd. vm_compute. reflexivity.
Defined.

(** C4 as stated fails: a window whose records carry a PnL that is not
    a number makes the tick raise [ValueError], and the handler that
    ran it ends. *)
Lemma C4_counterexample :
  analyze CPython.lib cfg garbled w_act = (w_act, Raise ValueError) ∧
  (ws_iteration CPython.lib cfg 1%nat garbled (ws_accept 1%nat w_act)).2 =
    Exit (Ok tt).
Proof. split; vm_compute; reflexivity. Qed.

(** C5. When [trades_since_action] (the total trade count minus
    [last_action_trade[sym]]) is below the cooldown, the tick emits no
    command for the symbol, whatever its counters; and when the tick
    evaluates the symbol, [fail_count] and [pass_count] take their step 1
    values and the snapshot entry of the symbol is rewritten. *)
Theorem C5_cooldown_blocks_commands (L : pylib) (C : config) (src : source) (w : world) (sym : symbol) :
  tick_count src - dget (last_action_trade w) sym < COOLDOWN C →
  let w' := (analyze L C src w).1 in
  commands_for sym (emitted_since w w') = [] ∧
  ∀ st, evaluated_at L C sym src w = Some st →
    let c1 := step1 (ws_is_failing st)
                    (dget (fail_counts w) sym) (dget (pass_counts w) sym) in
    dget (fail_counts w') sym = c1.1 ∧
    dget (pass_counts w') sym = c1.2 ∧
    STATE w' !! sym = Some {|
      edge := py_round L (ws_edge st) 4;
      confidence := py_round L (ws_conf st) 4;
      survival := py_round L (ws_survival st) 4;
      fail_count := c1.1;
      pass_count := c1.2;
      trades_since_action := tick_count src - dget (last_action_trade w) sym;
      can_act := false;
      mode := MODE w;
      status := if negb (ws_is_failing st) then "PASS" else "WARN" |}.
Proof.
  intros Hcool. cbn zeta. split.
  - destruct (analyze_commands_for L C src w sym) as [H|H]; [exact H|].
    destruct H as (w1 & pnls & [Hv _] & ->).
    unfold view in Hv. injection Hv as _ _ Hl _.
    apply emitted_since_app. rewrite app_nil_r.
    apply eval_symbol_cooldown_silent. by rewrite Hl.
  - intros st Hev.
    destruct (analyze_evaluated L C src w sym st Hev)
      as (w1 & pnls & Hst & Hm & Hv1 & Hv2 & _).
    cbn zeta in Hv2. unfold view in Hv1, Hv2.
    injection Hv1 as Hf1 Hp1 Hl1 _. injection Hv2 as Hf2 Hp2 _ Hs2.
    destruct (eval_symbol_cooldown L C (tick_count src) sym pnls w1 st Hst)
      as (_ & _ & _ & _ & Hf & Hp & _ & Hs); [by rewrite Hl1|].
    rewrite Hf1, Hp1, Hl1, Hm in *. rewrite Hf2, Hp2, Hs2. done.
Qed.

Lemma C5_cooldown_blocks_commands_witness :
  tick_count losing - dget (last_action_trade w_act) X < COOLDOWN cfg_cooldown ∧
  let w' := (analyze CPython.lib cfg_cooldown losing w_act).1 in
  commands_for X (emitted_since w_act w') = [] ∧
  ∀ st, evaluated_at CPython.lib cfg_cooldown X losing w_act = Some st →
    let c1 := step1 (ws_is_failing st)
                    (dget (fail_counts w_act) X) (dget (pass_counts w_act) X) in
    dget (fail_counts w') X = c1.1 ∧
    dget (pass_counts w') X = c1.2 ∧
    STATE w' !! X = Some {|
      edge := py_round CPython.lib (ws_edge st) 4;
      confidence := py_round CPython.lib (ws_conf st) 4;
      survival := py_round CPython.lib (ws_survival st) 4;
      fail_count := c1.1;
      pass_count := c1.2;
      trades_since_action := tick_count losing - dget (last_action_trade w_act) X;
      can_act := false;
      mode := MODE w_act;
      status := if negb (ws_is_failing st) then "PASS" else "WARN" |}.
Proof.
  assert (tick_count losing - dget (last_action_trade w_act) X
          < COOLDOWN cfg_cooldown) as H by (vm_compute; reflexivity).
  split; [exact H|].
  exact (C5_cooldown_blocks_commands CPython.lib cfg_cooldown losing w_act X H).
Defined.






(** C8. While the mode is OBSERVE the command file is never written:
    [emit] returns without touching it for any sequence of commands,
    and so does any number of evaluation ticks. *)
Theorem C8_observe_never_writes (L : pylib) (C : config) (w : world) :
  MODE w = "OBSERVE" →
  (∀ cmds, (emit_all cmds w).2 = Ok tt ∧
           command_file (emit_all cmds w).1 = command_file w ∧
           stdout (emit_all cmds w).1 = stdout w ++ map Would_execute cmds) ∧
  (∀ srcs, command_file (run_ticks L C srcs w) = command_file w).
Proof.
  intros Hm. split.
  - intros cmds. by apply emit_all_observe.
  - intros srcs. by apply run_ticks_observe.
Qed.

Lemma C8_observe_never_writes_witness :
  MODE w_observe = "OBSERVE" ∧
  (∀ cmds, (emit_all cmds w_observe).2 = Ok tt ∧
           command_file (emit_all cmds w_observe).1 = command_file w_observe ∧
           stdout (emit_all cmds w_observe).1 =
             stdout w_observe ++ map Would_execute cmds) ∧
  (∀ srcs, command_file (run_ticks CPython.lib cfg srcs w_observe) =
           command_file w_observe).
Proof.
  split; [reflexivity|].
  apply (C8_observe_never_writes CPython.lib cfg w_observe). reflexivity.
Defined.

(** C9 (as amended). Every ENABLE command of a tick carries
    [confidence / 2.0] clamped into [[min_weight, max_weight]] by
    [min(max_weight, max(min_weight, .))] and then rounded to three
    decimals; for [min_weight <= max_weight] the value that is rounded
    lies in the interval and is the half confidence when that lies in
    it. With confidence 100.0, min_weight 0.05 and max_weight 0.5, the
    emitted weight is 0.5. *)
Theorem C9_enable_weight :
  (∀ (L : pylib) (C : config) (src : source) (w : world) (c : command),
     c ∈ emitted_since w (analyze L C src w).1 → is_enable c = true →
     ∃ b sym pnls st hi lo,
       window_buckets L C src = Ok b ∧ (sym, pnls) ∈ b ∧
       compute_stats L C pnls = Ok st ∧
       max_weight C = Some hi ∧ min_weight C = Some lo ∧
       let half := F64.div (ws_conf st) two in
       let weight := py_min hi (py_max lo half) in
       c = ENABLE_ENGINE sym (py_round L weight 3) ∧
       (F64.leb lo hi = true → clamped_into lo hi half weight)) ∧
  py_round CPython.lib
    (py_min (lit 5 (-1)) (py_max (lit 5 (-2)) (F64.div (lit 100 0) two))) 3
  = lit 5 (-1).
Proof.
  split; [|vm_compute; reflexivity].
  intros L C src w c. unfold analyze, window_buckets. fold (tick_count src).
  destruct (tick_count src <? WINDOW C).
  { cbn. rewrite emitted_since_refl. intros H. by apply elem_of_nil in H. }
  unfold bind, lift. destruct (fill_buckets L _ []) as [b|e].
  2:{ cbn. rewrite emitted_since_refl. intros H. by apply elem_of_nil in H. }
  intros Hin Hen.
  destruct (eval_buckets_enable L C _ _ _ _ Hin Hen)
    as (s & pnls & st & hi & lo & Hb & Hst & Hhi & Hlo & ->).
  exists b, s, pnls, st, hi, lo.
  split; [done|]. split; [done|]. split; [done|]. split; [done|].
  split; [done|]. cbn zeta. split; [done|].
  apply py_min_max_clamped.
Qed.

Lemma C9_enable_weight_witness :
  ∃ b sym pnls st hi lo,
    window_buckets CPython.lib cfg_enable mixed = Ok b ∧ (sym, pnls) ∈ b ∧
    compute_stats CPython.lib cfg_enable pnls = Ok st ∧
    max_weight cfg_enable = Some hi ∧ min_weight cfg_enable = Some lo ∧
    let half := F64.div (ws_conf st) two in
    let weight := py_min hi (py_max lo half) in
    ENABLE_ENGINE X (lit 102 (-3)) =
      ENABLE_ENGINE sym (py_round CPython.lib weight 3) ∧
    (F64.leb lo hi = true → clamped_into lo hi half weight).
Proof.
  apply (proj1 C9_enable_weight CPython.lib cfg_enable mixed w_act
           (ENABLE_ENGINE X (lit 102 (-3)))).
  - vm_compute. apply list_elem_of_here.
  - reflexivity.
Defined.

(** C9 as stated fails: with confidence 0.20412414523193154 the half
    confidence 0.10206207261596577 lies in [[0.05, 0.5]], and the
    emitted weight is 0.102. *)
Lemma C9_counterexample :
  ws_conf <$> evaluated_at CPython.lib cfg_enable X mixed w_act =
    Some (lit 20412414523193154 (-17)) ∧
  emitted_since w_act (analyze CPython.lib cfg_enable mixed w_act).1 =
    [ENABLE_ENGINE X (lit 102 (-3))] ∧
  py_min (lit 5 (-1))
         (py_max (lit 5 (-2)) (F64.div (lit 20412414523193154 (-17)) two)) =
    lit 10206207261596577 (-17) ∧
  F64.eqb (lit 102 (-3)) (lit 10206207261596577 (-17)) = false.
Proof. repeat split; vm_compute; reflexivity. Qed.

(** C10. With both thresholds at least 1, a tick emits at most one
    command for a symbol: never a DISABLE and an ENABLE together. *)
Theorem C10_at_most_one_command (L : pylib) (C : config) (src : source) (w : world) (sym : symbol) :
  1 ≤ DISABLE_WINDOWS C → 1 ≤ ENABLE_WINDOWS C →
  let cmds := commands_for sym (emitted_since w (analyze L C src w).1) in
  (length cmds ≤ 1)%nat ∧
  ¬ (∃ c1 c2, c1 ∈ cmds ∧ c2 ∈ cmds ∧ is_disable c1 = true ∧ is_enable c2 = true).
Proof.
  intros HD HE. cbn zeta.
  assert (length (commands_for sym (emitted_since w (analyze L C src w).1)) ≤ 1)%nat
    as Hlen.
  { destruct (analyze_commands_for L C src w sym) as [->|H]; [cbn; lia|].
    destruct H as (w1 & pnls & _ & ->).
    destruct (eval_symbol_emits L C (tick_count src) sym pnls w1)
      as (l & Hl & _ & Hlen).
    rewrite (emitted_since_app _ _ _ Hl). by apply Hlen. }
  split; [exact Hlen|].
  intros (c1 & c2 & H1 & H2 & Hd & He).
  destruct (commands_for sym _) as [|c [|c' r]]; cbn in Hlen.
  - by apply elem_of_nil in H1.
  - apply list_elem_of_singleton in H1, H2. subst.
    destruct c; discriminate.
  - lia.
Qed.

Lemma C10_at_most_one_command_witness :
  let cmds :=
    commands_for X (emitted_since w_act (analyze CPython.lib cfg losing w_act).1) in
  (length cmds ≤ 1)%nat ∧
  ¬ (∃ c1 c2, c1 ∈ cmds ∧ c2 ∈ cmds ∧ is_disable c1 = true ∧ is_enable c2 = true).
Proof.
  apply (C10_at_most_one_command CPython.lib cfg losing w_act X).
  - vm_compute. discriminate.
  - vm_compute. discriminate.
Defined.

(** * Further properties of the server *)

Section Gate.

Variable L : pylib.
Variable C : config.

Local Opaque two epsilon F64.div.

Ltac run_body :=
  unfold eval_symbol, emit, print, append_command, read_last_action_trade,
    bind, lift, modify, gets, ret, config_get;
  cbn.

Ltac branch :=
  match goal with
  | |- context [match compute_stats ?l ?c ?p with _ => _ end] =>
      destruct (compute_stats l c p) eqn:?
  | |- context [if ws_is_failing ?st then _ else _] =>
      destruct (ws_is_failing st) eqn:?
  | |- context [if negb (?a <=? ?b) then _ else _] => destruct (a <=? b) eqn:?
  | |- context [if ?a <=? ?b then _ else _] => destruct (a <=? b) eqn:?
  | |- context [if String.eqb ?a ?b then _ else _] =>
      destruct (String.eqb a b) eqn:?
  | |- context [match command_file ?w with _ => _ end] =>
      destruct (command_file w) eqn:?
  | |- context [match max_weight ?c with _ => _ end] =>
      destruct (max_weight c) eqn:?
  | |- context [match min_weight ?c with _ => _ end] =>
      destruct (min_weight c) eqn:?
  end; cbn; rewrite ?dget_insert_eq.

Ltac branches := run_body; repeat branch.

(** Hypotheses that contradict each other after the case analysis. *)
Ltac absurd_branch :=
  match goal with
  | H : emits_succeed _ |- _ =>
      destruct H as [H|[? H]]; [rewrite H in *; discriminate|congruence]
  | H1 : ?x = Ok _, H2 : ?x = Raise _ |- _ => congruence
  | _ => exfalso; lia
  | _ => congruence
  end.

Lemma outputs_follow_refl w : outputs_follow w w.
Proof.
  split; [done|]. exists []. cbn. rewrite !app_nil_r.
  repeat split. destruct (command_file w); cbn; [|done]. by rewrite app_nil_r.
Qed.

Lemma outputs_follow_trans w1 w2 w3 :
  outputs_follow w1 w2 → outputs_follow w2 w3 → outputs_follow w1 w3.
Proof.
  intros [Hm1 (l1 & He1 & Ho1 & Hf1)] [Hm2 (l2 & He2 & Ho2 & Hf2)].
  split; [congruence|]. exists (l1 ++ l2). rewrite Hm1 in *.
  rewrite He2, He1, Ho2, Ho1, Hf2, Hf1, map_app, flat_map_app, !app_assoc.
  repeat split. destruct (command_file w1); cbn; [|done]. by rewrite app_assoc.
Qed.

(** With [emit] unable to fail, the loop body prints and writes one
    line per call to [emit] and nothing else. *)
Lemma eval_symbol_outputs n s pnls w :
  emits_succeed w → outputs_follow w (eval_symbol L C n s pnls w).1.
Proof.
  intros Hs. unfold outputs_follow, printed_as, written_as. branches.
  all: try absurd_branch.
  all: split; [reflexivity|].
  all: first
    [ exists []; split; [by rewrite app_nil_r|]
    | eexists [_]; split; [reflexivity|]
    | eexists [_; _]; split; [rewrite <- app_assoc; reflexivity|] ].
  all: cbn; rewrite <- ?app_assoc, ?app_nil_r; cbn.
  all: repeat match goal with H : command_file _ = _ |- _ => rewrite H end.
  all: cbn; rewrite <- ?app_assoc, ?app_nil_r; cbn.
  all: try (split; reflexivity).
  all: split; [reflexivity|]; destruct (command_file _); cbn;
    rewrite ?app_nil_r; reflexivity.
Qed.


(** [last_action_trade[sym]] stays, or becomes the trade count of a
    tick that passed the cooldown. *)
Lemma eval_symbol_last n s pnls w :
  let w' := (eval_symbol L C n s pnls w).1 in
  dget (last_action_trade w') s = dget (last_action_trade w) s ∨
  (dget (last_action_trade w') s = n ∧
   COOLDOWN C ≤ n - dget (last_action_trade w) s).
Proof.
  branches.
  all: rewrite ?dget_insert_eq.
  all: first [left; reflexivity | right; split; [reflexivity|lia]].
Qed.

(** When [emit] cannot fail, an evaluation that called it has recorded
    the trade count as the time of the last action. *)
Lemma eval_symbol_acted n s pnls w :
  emits_succeed w →
  emitted (eval_symbol L C n s pnls w).1 ≠ emitted w →
  dget (last_action_trade (eval_symbol L C n s pnls w).1) s = n.
Proof.
  intros Hs. branches.
  all: try absurd_branch.
  all: rewrite ?dget_insert_eq; try reflexivity.
  all: intros H; by destruct H.
Qed.

(** Step 4: a failing evaluation that reaches the threshold after the
    cooldown emits the DISABLE and resets. *)
Lemma eval_symbol_disables n s pnls w st :
  compute_stats L C pnls = Ok st → ws_is_failing st = true →
  DISABLE_WINDOWS C ≤ dget (fail_counts w) s + 1 →
  COOLDOWN C ≤ n - dget (last_action_trade w) s →
  1 ≤ ENABLE_WINDOWS C → emits_succeed w →
  let r := eval_symbol L C n s pnls w in
  r.2 = Ok tt ∧
  emitted r.1 = emitted w ++ [DISABLE_ENGINE s (ws_survival st) (ws_conf st)] ∧
  dget (fail_counts r.1) s = 0 ∧ dget (pass_counts r.1) s = 0 ∧
  dget (last_action_trade r.1) s = n.
Proof.
  intros Hst Hf HD Hc HE Hs. run_body. rewrite Hst. cbn. rewrite Hf. cbn.
  repeat branch.
  all: try absurd_branch.
  all: rewrite ?dget_insert_eq; repeat split; reflexivity.
Qed.

(** Step 5: a passing evaluation that reaches the threshold after the
    cooldown emits the ENABLE and resets. *)
Lemma eval_symbol_enables n s pnls w st hi lo :
  compute_stats L C pnls = Ok st → ws_is_failing st = false →
  ENABLE_WINDOWS C ≤ dget (pass_counts w) s + 1 →
  COOLDOWN C ≤ n - dget (last_action_trade w) s →
  1 ≤ DISABLE_WINDOWS C →
  max_weight C = Some hi → min_weight C = Some lo → emits_succeed w →
  let r := eval_symbol L C n s pnls w in
  r.2 = Ok tt ∧
  emitted r.1 =
    emitted w ++
    [ENABLE_ENGINE s
       (py_round L (py_min hi (py_max lo (F64.div (ws_conf st) two))) 3)] ∧
  dget (fail_counts r.1) s = 0 ∧ dget (pass_counts r.1) s = 0 ∧
  dget (last_action_trade r.1) s = n.
Proof.
  intros Hst Hf HE Hc HD Hhi Hlo Hs. run_body. rewrite Hst. cbn. rewrite Hf. cbn.
  rewrite Hhi, Hlo. repeat branch.
  all: try absurd_branch.
  all: rewrite ?dget_insert_eq; repeat split; reflexivity.
Qed.


(** The entry written for an evaluated symbol shows the counters as
    step 1 left them. *)
Lemma eval_symbol_entry n s pnls w st :
  compute_stats L C pnls = Ok st →
  STATE (eval_symbol L C n s pnls w).1 !! s =
    Some (entry_of L C n (MODE w) st (dget (fail_counts w) s)
            (dget (pass_counts w) s) (dget (last_action_trade w) s)).
Proof.
  intros Hst. unfold entry_of, step1. run_body. rewrite Hst. cbn.
  repeat branch.
  all: rewrite ?lookup_insert_eq; reflexivity.
Qed.

(** No entry of the snapshot is ever removed. *)
Lemma eval_symbol_keeps_entries n s pnls w s' :
  is_Some (STATE w !! s') → is_Some (STATE (eval_symbol L C n s pnls w).1 !! s').
Proof.
  intros H. branches.
  all: try exact H.
  all: destruct (decide (s = s')) as [->|Hne];
    [rewrite lookup_insert_eq; eauto|by rewrite lookup_insert_ne].
Qed.

(** With both weights configured and [emit] unable to fail, the loop
    body raises only what the statistics raise. *)
Lemma eval_symbol_returns n s pnls w st :
  compute_stats L C pnls = Ok st →
  is_Some (max_weight C) → is_Some (min_weight C) → emits_succeed w →
  (eval_symbol L C n s pnls w).2 = Ok tt.
Proof.
  intros Hst [hi Hhi] [lo Hlo] Hs. run_body. rewrite Hst. cbn.
  rewrite Hhi, Hlo. repeat branch.
  all: try absurd_branch.
  all: reflexivity.
Qed.


(** A command file that cannot be opened stays so. *)
Lemma eval_symbol_locked n s pnls w :
  command_file w = None → command_file (eval_symbol L C n s pnls w).1 = None.
Proof. intros Hf. branches; congruence. Qed.

End Gate.

Section Window.

Variable L : pylib.
Variable C : config.

(** ** The window and its buckets *)

Lemma values_of_cons sym s x prs :
  values_of sym ((s, x) :: prs) =
    (if decide (s = sym) then [x] else []) ++ values_of sym prs.
Proof.
  unfold values_of. rewrite filter_cons. cbn.
  destruct (decide (s = sym)); reflexivity.
Qed.

Lemma bucket_get_ensure sym s b :
  bucket_get sym (ensure_bucket s b) = bucket_get sym b.
Proof.
  unfold ensure_bucket. destruct (decide (s ∈ bucket_keys b)) as [|Hn]; [done|].
  unfold bucket_get. induction b as [|[s' l] r IH]; cbn.
  - destruct (decide (s = sym)); reflexivity.
  - destruct (decide (s' = sym)); [reflexivity|].
    cbn in Hn. apply not_elem_of_cons in Hn as [_ Hn]. specialize (IH Hn).
    destruct (split_at_symbol sym (r ++ [(s, [])])) as [[? ?]|],
      (split_at_symbol sym r) as [[? ?]|]; cbn in *; done.
Qed.

Lemma bucket_get_append sym s x b :
  s ∈ bucket_keys b →
  bucket_get sym (bucket_append s x b) =
    bucket_get sym b ++ (if decide (s = sym) then [x] else []).
Proof.
  unfold bucket_get. induction b as [|[s' l] r IH]; cbn; intros Hin.
  - by apply elem_of_nil in Hin.
  - destruct (decide (s' = s)) as [->|Hne]; cbn.
    + destruct (decide (s = sym)); [reflexivity|].
      destruct (split_at_symbol sym r) as [[? ?]|]; cbn; rewrite ?app_nil_r; done.
    + apply elem_of_cons in Hin as [->|Hin]; [done|]. specialize (IH Hin).
      destruct (decide (s' = sym)) as [->|].
      * destruct (decide (s = sym)); [congruence|]. rewrite ?app_nil_r; done.
      * destruct (split_at_symbol sym (bucket_append s x r)) as [[? ?]|],
          (split_at_symbol sym r) as [[? ?]|]; cbn in *; try done.
Qed.

Lemma ensure_bucket_key s b : s ∈ bucket_keys (ensure_bucket s b).
Proof.
  unfold ensure_bucket. destruct (decide (s ∈ bucket_keys b)); [done|].
  unfold bucket_keys. rewrite map_app. apply elem_of_app. right.
  apply list_elem_of_here.
Qed.

Lemma ensure_bucket_keys s b sym :
  sym ∈ bucket_keys (ensure_bucket s b) ↔ sym ∈ bucket_keys b ∨ sym = s.
Proof.
  unfold ensure_bucket. destruct (decide (s ∈ bucket_keys b)).
  - split; [by left|]. intros [?| ->]; done.
  - unfold bucket_keys. rewrite map_app, elem_of_app. cbn.
    by rewrite list_elem_of_singleton.
Qed.

Lemma bucket_get_elem sym pnls b :
  NoDup (bucket_keys b) → (sym, pnls) ∈ b → bucket_get sym b = pnls.
Proof.
  unfold bucket_get. induction b as [|[s l] r IH]; cbn; intros Hnd Hin.
  - by apply elem_of_nil in Hin.
  - apply NoDup_cons in Hnd as [Hs Hnd].
    apply elem_of_cons in Hin as [[= -> ->]|Hin].
    + by destruct (decide _).
    + destruct (decide (s = sym)) as [->|].
      * exfalso. apply Hs. unfold bucket_keys.
        apply (list_elem_of_fmap_2 fst) in Hin. exact Hin.
      * specialize (IH Hnd Hin).
        destruct (split_at_symbol sym r) as [[? ?]|]; cbn in *; done.
Qed.

Lemma bucket_get_none sym b : sym ∉ bucket_keys b → bucket_get sym b = [].
Proof.
  unfold bucket_get. induction b as [|[s l] r IH]; cbn; intros Hn; [done|].
  apply not_elem_of_cons in Hn as [Hne Hn].
  destruct (decide (s = sym)); [congruence|]. specialize (IH Hn).
  destruct (split_at_symbol sym r) as [[? ?]|]; cbn in *; done.
Qed.

(** What the first loop builds on top of [b0]. *)
Lemma fill_buckets_spec rows b0 b :
  fill_buckets L rows b0 = Ok b →
  ∃ prs,
    Forall2 (fun t p => parse_row L t = Ok p) rows prs ∧
    (∀ sym, bucket_get sym b = bucket_get sym b0 ++ values_of sym prs) ∧
    (∀ sym, sym ∈ bucket_keys b ↔ sym ∈ bucket_keys b0 ∨ sym ∈ prs.*1).
Proof.
  revert b0. induction rows as [|t rest IH]; intros b0 H;
    cbn [fill_buckets] in H.
  - simplify_eq. exists []. split; [constructor|]. split.
    + intros sym. by rewrite app_nil_r.
    + intros sym. cbn. split; [by left|]. intros [|Hin]; [done|].
      by apply elem_of_nil in Hin.
  - destruct (getitem t "symbol") as [s|] eqn:E1; cbn [result_bind] in H;
      [|done].
    destruct (getitem t "total_pnl") as [cell|] eqn:E2; cbn [result_bind] in H;
      [|done].
    destruct (float_of_cell L cell) as [x|] eqn:E3; cbn [result_bind] in H;
      [|done].
    destruct (IH _ H) as (prs & Hp & Hg & Hk).
    exists ((s, x) :: prs). split; [|split].
    + constructor; [|done]. unfold parse_row.
      rewrite E1. cbn. rewrite E2. cbn. by rewrite E3.
    + intros sym. rewrite Hg, bucket_get_append by apply ensure_bucket_key.
      rewrite bucket_get_ensure, values_of_cons. by rewrite app_assoc.
    + intros sym. rewrite Hk, bucket_keys_append, ensure_bucket_keys. cbn.
      rewrite elem_of_cons. tauto.
Qed.

Lemma values_of_nonempty sym prs : sym ∈ prs.*1 → values_of sym prs ≠ [].
Proof.
  induction prs as [|[s x] r IH]; intros Hin.
  - by apply elem_of_nil in Hin.
  - rewrite values_of_cons. destruct (decide (s = sym)); [done|].
    rewrite fmap_cons in Hin. cbn in Hin.
    apply elem_of_cons in Hin as [->|Hin]; [done|]. by apply IH.
Qed.

(** The first loop raises the error of the first row that cannot be
    read. *)
Lemma fill_buckets_raises_first pre t post b0 e :
  Forall (fun t => is_raise (parse_row L t) = false) pre →
  parse_row L t = Raise e →
  fill_buckets L (pre ++ t :: post) b0 = Raise e.
Proof.
  intros Hpre Ht. revert b0.
  induction Hpre as [|t0 pre Ht0 _ IH]; intros b0; cbn [app fill_buckets].
  - unfold parse_row in Ht.
    destruct (getitem t "symbol") as [s|e1]; cbn [result_bind] in *;
      [|congruence].
    destruct (getitem t "total_pnl") as [cell|e2]; cbn [result_bind] in *;
      [|congruence].
    destruct (float_of_cell L cell) as [x|e3]; cbn [result_bind] in *;
      congruence.
  - unfold parse_row in Ht0.
    destruct (getitem t0 "symbol") as [s|]; cbn [result_bind is_raise] in *;
      [|done].
    destruct (getitem t0 "total_pnl") as [cell|]; cbn [result_bind is_raise] in *;
      [|done].
    destruct (float_of_cell L cell) as [x|]; cbn [result_bind is_raise] in *;
      [|done].
    apply IH.
Qed.

(** [trades[-WINDOW:]] on a history that ends with [WINDOW] rows. *)
Lemma py_slice_from_recent {A} (old recent : list A) :
  (0 < length recent)%nat →
  py_slice_from (- Z.of_nat (length recent)) (old ++ recent) = recent.
Proof.
  intros Hpos. unfold py_slice_from. rewrite length_app.
  assert ((- Z.of_nat (length recent) <? 0) = true) as -> by lia.
  replace (Z.to_nat (Z.max 0 (Z.of_nat (length old + length recent)
                              + - Z.of_nat (length recent))))
    with (length old) by lia.
  by rewrite drop_app_length.
Qed.

(** ** One tick *)

Lemma outputs_follow_succeed w w' :
  outputs_follow w w' → emits_succeed w → emits_succeed w'.
Proof.
  intros [Hm (l & _ & _ & Hf)] [Hs|[f Hs]].
  - left. congruence.
  - right. rewrite Hf, Hs. cbn. eauto.
Qed.

Lemma eval_buckets_outputs n b w :
  emits_succeed w → outputs_follow w (eval_buckets L C n b w).1.
Proof.
  revert w. induction b as [|[s p] r IH]; intros w Hs; cbn [eval_buckets].
  - apply outputs_follow_refl.
  - unfold bind. pose proof (eval_symbol_outputs L C n s p w Hs) as Ho.
    destruct (eval_symbol L C n s p w) as [w1 [[]|e]]; cbn in *; [|done].
    eapply outputs_follow_trans; [exact Ho|]. apply IH.
    by eapply outputs_follow_succeed.
Qed.

Lemma eval_buckets_keeps_entries n b w s' :
  is_Some (STATE w !! s') → is_Some (STATE (eval_buckets L C n b w).1 !! s').
Proof.
  revert w. induction b as [|[s p] r IH]; intros w H; cbn [eval_buckets].
  - exact H.
  - unfold bind. pose proof (eval_symbol_keeps_entries L C n s p w s' H) as H1.
    destruct (eval_symbol L C n s p w) as [w1 [[]|e]]; cbn in *; [|done].
    by apply IH.
Qed.

Lemma eval_buckets_returns n b w :
  Forall (fun sp => is_raise (compute_stats L C sp.2) = false) b →
  is_Some (max_weight C) → is_Some (min_weight C) → emits_succeed w →
  (eval_buckets L C n b w).2 = Ok tt.
Proof.
  intros Hb Hhi Hlo. revert w.
  induction Hb as [|[s p] r Hp _ IH]; intros w Hs; cbn [eval_buckets]; [done|].
  unfold bind. cbn in Hp.
  destruct (compute_stats L C p) as [st|] eqn:Hst; [|done].
  pose proof (eval_symbol_returns L C n s p w st Hst Hhi Hlo Hs) as Hr.
  pose proof (eval_symbol_outputs L C n s p w Hs) as Ho.
  destruct (eval_symbol L C n s p w) as [w1 r1]; cbn in *. subst r1.
  apply IH. by eapply outputs_follow_succeed.
Qed.

(** A command file that cannot be opened stays so through the items
    that return. *)
Lemma eval_buckets_locked n b w :
  command_file w = None → command_file (eval_buckets L C n b w).1 = None.
Proof.
  revert w. induction b as [|[s p] r IH]; intros w Hf; cbn [eval_buckets]; [done|].
  unfold bind.
  pose proof (eval_symbol_locked L C n s p w Hf) as H1.
  destruct (eval_symbol L C n s p w) as [w1 [[]|e]]; cbn in *; [|done].
  by apply IH.
Qed.

(** The tick that evaluates [sym], in full: the gate of [sym] runs once
    on a non-empty bucket, from a world that holds for [sym] what [w]
    holds and in which [emit] fails no more than in [w]; what it raises
    ends the tick. *)
Lemma analyze_at src w sym st :
  evaluated_at L C sym src w = Some st →
  ∃ w1 pnls,
    let r := eval_symbol L C (tick_count src) sym pnls w1 in
    compute_stats L C pnls = Ok st ∧ pnls ≠ [] ∧
    MODE w1 = MODE w ∧ (emits_succeed w → emits_succeed w1) ∧
    (command_file w = None → command_file w1 = None) ∧
    view sym w1 = view sym w ∧
    view sym (analyze L C src w).1 = view sym r.1 ∧
    commands_for sym (emitted_since w (analyze L C src w).1) =
      emitted_since w1 r.1 ∧
    (∀ e, r.2 = Raise e → analyze L C src w = (r.1, Raise e)).
Proof.
  unfold analyze, evaluated_at, window_buckets. fold (tick_count src).
  destruct (tick_count src <? WINDOW C); [done|].
  unfold bind, lift.
  destruct (fill_buckets L _ []) as [b|e] eqn:Hb; [|done].
  pose proof (fill_buckets_spec _ _ _ Hb) as (prs & _ & Hget & Hkeys).
  apply fill_buckets_nodup in Hb; [|apply NoDup_nil_2].
  destruct (split_at_symbol sym b) as [[pre pnls]|] eqn:Hs; [|done].
  assert (pnls ≠ []) as Hne.
  { specialize (Hget sym). unfold bucket_get in Hget at 1. rewrite Hs in Hget.
    cbn in Hget. rewrite Hget. apply values_of_nonempty.
    destruct (proj1 (Hkeys sym)) as [Hin|Hin]; [|by apply elem_of_nil in Hin|done].
    apply split_at_symbol_some in Hs as (post & -> & _).
    unfold bucket_keys. rewrite map_app. apply elem_of_app. right.
    apply list_elem_of_here. }
  apply split_at_symbol_some in Hs as (post & -> & Hpre).
  assert (sym ∉ bucket_keys post) as Hpost.
  { unfold bucket_keys in Hb. rewrite map_app in Hb. cbn in Hb.
    apply NoDup_app in Hb as (_ & _ & Hb). apply NoDup_cons in Hb. tauto. }
  rewrite eval_buckets_app.
  pose proof (eval_buckets_quiet L C (tick_count src) pre w sym Hpre) as Hq1.
  pose proof (eval_buckets_env L C (tick_count src) pre w) as (Hm1 & _).
  assert (emits_succeed w →
          emits_succeed (eval_buckets L C (tick_count src) pre w).1) as Hs1.
  { intros H. eapply outputs_follow_succeed; [|exact H].
    by apply eval_buckets_outputs. }
  pose proof (eval_buckets_locked (tick_count src) pre w) as Hk1.
  destruct (eval_buckets L C (tick_count src) pre w) as [w1 [[]|e]];
    cbn in Hq1, Hm1, Hs1, Hk1; [|done].
  destruct (compute_stats L C pnls) as [st'|] eqn:Hst; [|done].
  intros [= ->]. exists w1, pnls. cbn zeta.
  split; [done|]. split; [done|]. split; [done|]. split; [done|].
  split; [done|]. split; [apply Hq1|].
  cbn [eval_buckets]. unfold bind.
  pose proof (eval_symbol_emits L C (tick_count src) sym pnls w1)
    as (l1 & H1 & Hl1 & _).
  pose proof (eval_buckets_quiet L C (tick_count src) post
                (eval_symbol L C (tick_count src) sym pnls w1).1 sym Hpost) as Hq2.
  destruct Hq1 as [_ (l0 & H0 & Hl0)].
  rewrite (emitted_since_app _ _ _ H1).
  destruct (eval_symbol L C (tick_count src) sym pnls w1) as [w2 [[]|e]];
    cbn in *.
  - destruct Hq2 as [Hv2 (l2 & H2 & Hl2)]. split; [done|]. split; [|done].
    erewrite emitted_since_app
      by (rewrite H2, H1, H0, <- !app_assoc; reflexivity).
    rewrite !commands_for_app.
    rewrite (commands_for_none _ _ Hl0), (commands_for_none _ _ Hl2).
    rewrite (commands_for_all _ _ Hl1). by rewrite app_nil_r.
  - split; [done|]. split; [|by intros ? [= ->]].
    erewrite emitted_since_app by (rewrite H1, H0, <- !app_assoc; reflexivity).
    rewrite !commands_for_app.
    rewrite (commands_for_none _ _ Hl0), (commands_for_all _ _ Hl1). done.
Qed.

End Window.

Section Ticks.

Variable L : pylib.
Variable C : config.

Lemma analyze_outputs src w :
  emits_succeed w → outputs_follow w (analyze L C src w).1.
Proof.
  intros Hs. unfold analyze. destruct (_ <? WINDOW C).
  { apply outputs_follow_refl. }
  unfold bind, lift. destruct (fill_buckets L _ []) as [b|e].
  - by apply eval_buckets_outputs.
  - apply outputs_follow_refl.
Qed.

Lemma analyze_keeps_entries src w s :
  is_Some (STATE w !! s) → is_Some (STATE (analyze L C src w).1 !! s).
Proof.
  intros H. unfold analyze. destruct (_ <? WINDOW C); [done|].
  unfold bind, lift. destruct (fill_buckets L _ []) as [b|e]; [|done].
  by apply eval_buckets_keeps_entries.
Qed.

(** What a tick does to [sym], with what the gate of [sym] can rely on
    when it runs. *)
Lemma analyze_cases src w sym :
  let w' := (analyze L C src w).1 in
  quiet sym w w' ∨
  ∃ w1 pnls,
    let r := eval_symbol L C (tick_count src) sym pnls w1 in
    view sym w1 = view sym w ∧
    (emits_succeed w → emits_succeed w1) ∧
    view sym w' = view sym r.1 ∧
    commands_for sym (emitted_since w w') = emitted_since w1 r.1.
Proof.
  unfold analyze. fold (tick_count src).
  destruct (tick_count src <? WINDOW C); [left; apply quiet_refl|].
  unfold bind, lift.
  destruct (fill_buckets L _ []) as [b|e] eqn:Hb; [|left; apply quiet_refl].
  apply fill_buckets_nodup in Hb; [|apply NoDup_nil_2].
  destruct (split_at_symbol sym b) as [[pre pnls]|] eqn:Hs.
  2:{ left. apply eval_buckets_quiet. by apply split_at_symbol_none. }
  apply split_at_symbol_some in Hs as (post & -> & Hpre).
  assert (sym ∉ bucket_keys post) as Hpost.
  { unfold bucket_keys in Hb. rewrite map_app in Hb. cbn in Hb.
    apply NoDup_app in Hb as (_ & _ & Hb). apply NoDup_cons in Hb. tauto. }
  rewrite eval_buckets_app.
  pose proof (eval_buckets_quiet L C (tick_count src) pre w sym Hpre) as Hq1.
  assert (emits_succeed w →
          emits_succeed (eval_buckets L C (tick_count src) pre w).1) as Hs1.
  { intros H. eapply outputs_follow_succeed; [|exact H].
    by apply eval_buckets_outputs. }
  destruct (eval_buckets L C (tick_count src) pre w) as [w1 [[]|e]];
    cbn in Hq1, Hs1; [|by left].
  right. exists w1, pnls. cbn zeta.
  split; [apply Hq1|]. split; [done|].
  cbn [eval_buckets]. unfold bind.
  pose proof (eval_symbol_emits L C (tick_count src) sym pnls w1)
    as (l1 & H1 & Hl1 & _).
  pose proof (eval_buckets_quiet L C (tick_count src) post
                (eval_symbol L C (tick_count src) sym pnls w1).1 sym Hpost) as Hq2.
  destruct Hq1 as [_ (l0 & H0 & Hl0)].
  rewrite (emitted_since_app _ _ _ H1).
  destruct (eval_symbol L C (tick_count src) sym pnls w1) as [w2 [[]|e]];
    cbn in *.
  - destruct Hq2 as [Hv2 (l2 & H2 & Hl2)]. split; [done|].
    erewrite emitted_since_app
      by (rewrite H2, H1, H0, <- !app_assoc; reflexivity).
    rewrite !commands_for_app.
    rewrite (commands_for_none _ _ Hl0), (commands_for_none _ _ Hl2).
    rewrite (commands_for_all _ _ Hl1). by rewrite app_nil_r.
  - split; [done|].
    erewrite emitted_since_app by (rewrite H1, H0, <- !app_assoc; reflexivity).
    rewrite !commands_for_app.
    rewrite (commands_for_none _ _ Hl0), (commands_for_all _ _ Hl1). done.
Qed.

Lemma signals_app sym srcs1 srcs2 w :
  signals L C sym (srcs1 ++ srcs2) w =
    signals L C sym srcs1 w ++ signals L C sym srcs2 (run_ticks L C srcs1 w).
Proof.
  revert w. induction srcs1 as [|src r IH]; intros w; cbn; [done|].
  by rewrite IH.
Qed.



(** ** Broadcast and the subscribers *)

Lemma broadcast_fold_clients data l w :
  let w' :=
    foldl (fun w ws =>
             if decide (ws ∈ connected w)
             then set_delivered (fun d => d ++ [(ws, data)]) w
             else set_CLIENTS (fun s => s ∖ {[ws]}) w) w l in
  ∀ c, c ∈ CLIENTS w' ↔ c ∈ CLIENTS w ∧ (c ∈ l → c ∈ connected w).
Proof.
  revert w. induction l as [|x l IH]; intros w; cbn [foldl].
  - intros c. split; [|tauto]. intros H. split; [done|].
    intros Hin. by apply elem_of_nil in Hin.
  - intros c. destruct (decide (x ∈ connected w)) as [Hx|Hx].
    + rewrite (IH _ c). cbn. rewrite elem_of_cons.
      split; intros [H1 H2]; (split; [done|]).
      * intros [->|Hin]; auto.
      * auto.
    + rewrite (IH _ c). cbn. rewrite elem_of_cons, elem_of_difference,
        elem_of_singleton.
      split.
      * intros [[H1 Hne] H2]. split; [done|]. intros [->|Hin]; [done|auto].
      * intros [H1 H2]. split; [split; [done|]|auto].
        intros ->. apply Hx. auto.
Qed.

End Ticks.

(** ** Histories *)

Lemma run_events_snoc L C evs ev w :
  run_events L C (evs ++ [ev]) w = handle L C ev (run_events L C evs w).
Proof. unfold run_events. by rewrite foldl_app. Qed.

Lemma reachable_run_events L C w :
  reachable L C w ↔
  ∃ m file socks evs, w = run_events L C evs (initial m file socks).
Proof.
  split.
  - induction 1 as [m file socks|w src _ IH|w self src _ IH|w self _ IH
                   |w m _ IH|w f _ IH|w socks _ IH].
    + by exists m, file, socks, [].
    + destruct IH as (m0 & f0 & s0 & evs & ->).
      exists m0, f0, s0, (evs ++ [Tick src]). by rewrite run_events_snoc.
    + destruct IH as (m0 & f0 & s0 & evs & ->).
      exists m0, f0, s0, (evs ++ [Turn self src]). by rewrite run_events_snoc.
    + destruct IH as (m0 & f0 & s0 & evs & ->).
      exists m0, f0, s0, (evs ++ [Accept self]). by rewrite run_events_snoc.
    + destruct IH as (m0 & f0 & s0 & evs & ->).
      exists m0, f0, s0, (evs ++ [Set_mode m]). by rewrite run_events_snoc.
    + destruct IH as (m0 & f0 & s0 & evs & ->).
      exists m0, f0, s0, (evs ++ [File_becomes f]). by rewrite run_events_snoc.
    + destruct IH as (m0 & f0 & s0 & evs & ->).
      exists m0, f0, s0, (evs ++ [Sockets_become socks]).
      by rewrite run_events_snoc.
  - intros (m & file & socks & evs & ->).
    induction evs as [|ev evs IH] using rev_ind; [apply reach_initial|].
    rewrite run_events_snoc. destruct ev; cbn [handle].
    + by apply reach_analyze.
    + by apply reach_ws.
    + by apply reach_accept.
    + by apply reach_set_mode.
    + by apply reach_file.
    + by apply reach_sockets.
Qed.

Lemma ws_iteration_env L C self src w :
  let w' := (ws_iteration L C self src w).1 in
  MODE w' = MODE w ∧ ∀ c, c ∈ CLIENTS w' → c ∈ CLIENTS w.
Proof.
  cbn zeta. unfold ws_iteration, bind, gets.
  pose proof (analyze_env L C src w) as (Hm & Hc & _).
  destruct (analyze L C src w) as [w1 [[]|e]]; cbn [fst snd] in *.
  - destruct (broadcast_spec (MODE w1, STATE w1) w1) as (Hr & Hs & _).
    pose proof (broadcast_fold_clients (MODE w1, STATE w1)
                  (elements (CLIENTS w1)) w1) as Hcl.
    unfold broadcast in *. cbn [fst snd] in *.
    destruct Hs as (Hm' & _). split; [congruence|].
    intros c Hin. apply Hcl in Hin as [Hin _]. by rewrite <- Hc.
  - destruct (decide (self ∈ CLIENTS w1)); cbn [fst]; split; try done.
    + intros c. cbn. rewrite elem_of_difference, Hc. tauto.
    + intros c. by rewrite Hc.
Qed.

Lemma handle_mode L C ev w :
  MODE (handle L C ev w) = MODE w ∨
  (ev = Set_mode (MODE (handle L C ev w)) ∧ valid_mode (MODE (handle L C ev w))).
Proof.
  destruct ev as [src|self src|self|m|f|socks]; cbn [handle].
  - left. apply analyze_env.
  - left. apply ws_iteration_env.
  - by left.
  - unfold set_mode. destruct (decide _) as [Hv|]; [|by left].
    right. by cbn.
  - by left.
  - by left.
Qed.

Lemma handle_clients L C ev w c :
  c ∈ CLIENTS (handle L C ev w) → c ∈ CLIENTS w ∨ ev = Accept c.
Proof.
  destruct ev as [src|self src|self|m|f|socks]; cbn [handle].
  - pose proof (analyze_env L C src w) as (_ & -> & _). by left.
  - intros H. left. by apply ws_iteration_env in H.
  - cbn. rewrite elem_of_union, elem_of_singleton.
    intros [->|H]; [by right|by left].
  - unfold set_mode. destruct (decide _); by left.
  - by left.
  - by left.
Qed.

(** ** Floats that are not numbers, and absolute values *)





Lemma abs_key q k : key (F64.abs q) = Some k → ¬ lex_lt k (0, 0, 0).
Proof.
  destruct q as [s|s| |s m e]; cbn; intros [= <-]; unfold lex_lt; cbn; lia.
Qed.

Lemma ltb_nonneg_below conf mc :
  F64.leb mc F64.zero = true →
  (∀ k, key conf = Some k → ¬ lex_lt k (0, 0, 0)) →
  F64.ltb conf mc = false.
Proof.
  intros Hle Hk. apply leb_key in Hle as (kc & k0 & Hkc & [= <-] & Hle).
  destruct (F64.ltb conf mc) eqn:E; [|done].
  apply ltb_key in E as (k' & kc' & Hk' & Hkc' & Hlt). exfalso.
  rewrite Hkc in Hkc'. simplify_eq. apply (Hk k' Hk').
  destruct Hle as [Hle| ->]; [|done]. by eapply lex_lt_trans.
Qed.

(** With the weights exchanged, the clamp gives the upper one. *)
Lemma py_min_max_swapped lo hi x :
  F64.ltb hi lo = true → py_min hi (py_max lo x) = hi.
Proof.
  intros Hlt. apply ltb_key in Hlt as (kh & kl & Hkh & Hkl & Hlt).
  unfold py_min, py_max. destruct (F64.ltb lo x) eqn:E1.
  - apply ltb_key in E1 as (? & kx & ? & Hkx & Hlx). simplify_eq.
    destruct (F64.ltb x hi) eqn:E2; [|done].
    apply ltb_key in E2 as (? & ? & ? & ? & Hxh). simplify_eq. exfalso.
    eapply lex_lt_irrefl, lex_lt_trans; [exact Hlt|].
    eapply lex_lt_trans; eauto.
  - destruct (F64.ltb lo hi) eqn:E2; [|done].
    apply ltb_key in E2 as (? & ? & ? & ? & Hxh). simplify_eq. exfalso.
    eapply lex_lt_irrefl, lex_lt_trans; eauto.
Qed.

(** * Further statements on the server *)

Import Cases.

(** X1. As long as [emit] cannot fail (the mode is OBSERVE, or the
    command file can be opened), any number of ticks prints exactly one
    line per emitted command and, outside OBSERVE, appends exactly one
    line per command after what the file held, in the order of the
    calls: tagged in ADVISE, verbatim for every other mode string. *)
Theorem X1_outputs_follow_emitted (L : pylib) (C : config) (srcs : list source) (w : world) :
  emits_succeed w → outputs_follow w (run_ticks L C srcs w).
Proof.
  revert w. induction srcs as [|src rest IH]; intros w Hs; cbn [run_ticks].
  - apply outputs_follow_refl.
  - pose proof (analyze_outputs L C src w Hs) as Ho.
    eapply outputs_follow_trans; [exact Ho|].
    apply IH. by eapply outputs_follow_succeed.
Qed.

Lemma X1_outputs_follow_emitted_witness :
  outputs_follow w_act (run_ticks CPython.lib cfg [losing; losing; losing] w_act).
Proof.
  apply (X1_outputs_follow_emitted CPython.lib cfg [losing; losing; losing] w_act).
  right. eexists. reflexivity.
Defined.



(** X3. Step 4 of the gate: when a symbol is evaluated as failing, its
    [fail_count] reaches the threshold, the cooldown has passed and
    [emit] cannot fail, the tick emits exactly the DISABLE of the symbol
    (for a positive enable threshold), both counters are zero after it
    and the trade count is recorded as the time of the last action. *)
Theorem X3_disable_at_threshold (L : pylib) (C : config) (src : source) (w : world)
    (sym : symbol) (st : window_stats) :
  evaluated_at L C sym src w = Some st → ws_is_failing st = true →
  DISABLE_WINDOWS C ≤ dget (fail_counts w) sym + 1 →
  COOLDOWN C ≤ tick_count src - dget (last_action_trade w) sym →
  1 ≤ ENABLE_WINDOWS C → emits_succeed w →
  let w' := (analyze L C src w).1 in
  commands_for sym (emitted_since w w') =
    [DISABLE_ENGINE sym (ws_survival st) (ws_conf st)] ∧
  dget (fail_counts w') sym = 0 ∧ dget (pass_counts w') sym = 0 ∧
  dget (last_action_trade w') sym = tick_count src.
Proof.
  intros Hev Hf HD Hc HE Hs.
  destruct (analyze_at L C src w sym st Hev)
    as (w1 & pnls & Hst & _ & _ & Hs1 & _ & Hv1 & Hv2 & Hcmd & _).
  cbn zeta in *. unfold view in Hv1, Hv2.
  injection Hv1 as Hf1 _ Hl1 _. injection Hv2 as Hf2 Hp2 Hl2 _.
  destruct (eval_symbol_disables L C (tick_count src) sym pnls w1 st Hst Hf)
    as (_ & He & Hfc & Hpc & Hl); [lia|lia|done|auto|].
  rewrite Hcmd, Hf2, Hp2, Hl2. split; [by apply emitted_since_app|done].
Qed.

Lemma X3_disable_at_threshold_witness :
  let w' := (analyze CPython.lib cfg_quick pair w_act).1 in
  commands_for X (emitted_since w_act w') =
    [DISABLE_ENGINE X (lit (-3) 0) F64.zero] ∧
  dget (fail_counts w') X = 0 ∧ dget (pass_counts w') X = 0 ∧
  dget (last_action_trade w') X = tick_count pair.
Proof.
  apply (X3_disable_at_threshold CPython.lib cfg_quick pair w_act X
           {| ws_edge := lit (-2) 0; ws_conf := F64.zero;
              ws_survival := lit (-3) 0; ws_is_failing := true |}).
  - vm_compute. reflexivity.
  - reflexivity.
  - vm_compute. discriminate.
  - vm_compute. discriminate.
  - vm_compute. discriminate.
  - right. eexists. reflexivity.
Defined.

(** X4. Step 5 of the gate: when a symbol is evaluated as passing, its
    [pass_count] reaches the threshold, the cooldown has passed, both
    weights are configured and [emit] cannot fail, the tick emits
    exactly the ENABLE of the symbol (for a positive disable threshold),
    both counters are zero after it and the trade count is recorded as
    the time of the last action. *)
Theorem X4_enable_at_threshold (L : pylib) (C : config) (src : source) (w : world)
    (sym : symbol) (st : window_stats) (hi lo : float) :
  evaluated_at L C sym src w = Some st → ws_is_failing st = false →
  ENABLE_WINDOWS C ≤ dget (pass_counts w) sym + 1 →
  COOLDOWN C ≤ tick_count src - dget (last_action_trade w) sym →
  1 ≤ DISABLE_WINDOWS C →
  max_weight C = Some hi → min_weight C = Some lo → emits_succeed w →
  let w' := (analyze L C src w).1 in
  commands_for sym (emitted_since w w') =
    [ENABLE_ENGINE sym
       (py_round L (py_min hi (py_max lo (F64.div (ws_conf st) two))) 3)] ∧
  dget (fail_counts w') sym = 0 ∧ dget (pass_counts w') sym = 0 ∧
  dget (last_action_trade w') sym = tick_count src.
Proof.
  intros Hev Hf HE Hc HD Hhi Hlo Hs.
  destruct (analyze_at L C src w sym st Hev)
    as (w1 & pnls & Hst & _ & _ & Hs1 & _ & Hv1 & Hv2 & Hcmd & _).
  cbn zeta in *. unfold view in Hv1, Hv2.
  injection Hv1 as _ Hp1 Hl1 _. injection Hv2 as Hf2 Hp2 Hl2 _.
  destruct (eval_symbol_enables L C (tick_count src) sym pnls w1 st hi lo Hst Hf)
    as (_ & He & Hfc & Hpc & Hl); [lia|lia|done|done|done|auto|].
  rewrite Hcmd, Hf2, Hp2, Hl2. split; [by apply emitted_since_app|done].
Qed.

Lemma X4_enable_at_threshold_witness :
  let w' := (analyze CPython.lib cfg_enable mixed w_act).1 in
  commands_for X (emitted_since w_act w') =
    [ENABLE_ENGINE X (lit 102 (-3))] ∧
  dget (fail_counts w') X = 0 ∧ dget (pass_counts w') X = 0 ∧
  dget (last_action_trade w') X = tick_count mixed.
Proof.
  apply (X4_enable_at_threshold CPython.lib cfg_enable mixed w_act X
           {| ws_edge := lit 2 (-1); ws_conf := lit 20412414523193154 (-17);
              ws_survival := lit 2 (-1); ws_is_failing := false |}
           (lit 5 (-1)) (lit 5 (-2))).
  - vm_compute. reflexivity.
  - reflexivity.
  - vm_compute. discriminate.
  - vm_compute. discriminate.
  - vm_compute. discriminate.
  - reflexivity.
  - reflexivity.
  - right. eexists. reflexivity.
Defined.



(** X6. The cooldown separates actions: when a tick has emitted a
    command for a symbol and [emit] could not fail, a next tick whose
    trade count is less than [cooldown_trades] above the first one's
    emits no command for that symbol. *)
Theorem X6_cooldown_after_action (L : pylib) (C : config) (src1 src2 : source) (w : world) (sym : symbol) :
  emits_succeed w →
  commands_for sym (emitted_since w (analyze L C src1 w).1) ≠ [] →
  tick_count src2 - tick_count src1 < COOLDOWN C →
  let w1 := (analyze L C src1 w).1 in
  dget (last_action_trade w1) sym = tick_count src1 ∧
  commands_for sym (emitted_since w1 (analyze L C src2 w1).1) = [].
Proof.
  intros Hs Hne Hlt. cbn zeta.
  assert (dget (last_action_trade (analyze L C src1 w).1) sym = tick_count src1)
    as Hlast.
  { destruct (analyze_cases L C src1 w sym) as [Hq|H].
    - by rewrite (quiet_commands _ _ _ Hq) in Hne.
    - destruct H as (w0 & pnls & Hv0 & Hs0 & Hv1 & Hcmd). cbn zeta in *.
      unfold view in Hv1. injection Hv1 as _ _ -> _.
      apply eval_symbol_acted; [auto|].
      intros Heq. apply Hne. rewrite Hcmd.
      apply emitted_since_app. by rewrite app_nil_r. }
  split; [exact Hlast|].
  destruct (analyze_commands_for L C src2 (analyze L C src1 w).1 sym)
    as [H|H]; [exact H|].
  destruct H as (w2 & pnls & [Hv _] & ->).
  unfold view in Hv. injection Hv as _ _ Hl _.
  apply emitted_since_app. rewrite app_nil_r.
  apply eval_symbol_cooldown_silent. rewrite Hl, Hlast. exact Hlt.
Qed.

Lemma X6_cooldown_after_action_witness :
  let w1 := (analyze CPython.lib cfg_guarded pair w_act).1 in
  dget (last_action_trade w1) X = tick_count pair ∧
  commands_for X (emitted_since w1 (analyze CPython.lib cfg_guarded pair w1).1) = [].
Proof.
  apply (X6_cooldown_after_action CPython.lib cfg_guarded pair pair w_act X).
  - right. eexists. reflexivity.
  - vm_compute. discriminate.
  - vm_compute. reflexivity.
Defined.

(** X7. For a cooldown that is not negative, [last_action_trade] of a
    symbol never decreases, over any number of ticks. *)
Theorem X7_last_action_never_decreases (L : pylib) (C : config) (srcs : list source) (w : world) (sym : symbol) :
  0 ≤ COOLDOWN C →
  dget (last_action_trade w) sym ≤
  dget (last_action_trade (run_ticks L C srcs w)) sym.
Proof.
  intros Hc. revert w. induction srcs as [|src rest IH]; intros w; cbn [run_ticks].
  - lia.
  - etransitivity; [|apply IH].
    destruct (analyze_cases L C src w sym) as [[Hv _]|H].
    + unfold view in Hv. injection Hv as _ _ -> _. lia.
    + destruct H as (w1 & pnls & Hv1 & _ & Hv2 & _). cbn zeta in *.
      unfold view in Hv1, Hv2.
      injection Hv1 as _ _ Hl1 _. injection Hv2 as _ _ Hl2 _.
      rewrite Hl2, <- Hl1.
      destruct (eval_symbol_last L C (tick_count src) sym pnls w1)
        as [->|[-> ?]]; lia.
Qed.

Lemma X7_last_action_never_decreases_witness :
  dget (last_action_trade w_act) X ≤
  dget (last_action_trade
          (run_ticks CPython.lib cfg [losing; losing; losing] w_act)) X.
Proof.
  apply (X7_last_action_never_decreases CPython.lib cfg
           [losing; losing; losing] w_act X).
  vm_compute. discriminate.
Defined.

(** X8. The snapshot entry of a symbol that a tick evaluates holds the
    rounded statistics, the mode, [trades_since_action], [can_act] and
    the two counters as step 1 left them: an action of the same tick
    resets the counter but not the entry. *)
Theorem X8_entry_shows_step1_counters (L : pylib) (C : config) (src : source) (w : world)
    (sym : symbol) (st : window_stats) :
  evaluated_at L C sym src w = Some st →
  STATE (analyze L C src w).1 !! sym =
    Some (entry_of L C (tick_count src) (MODE w) st
            (dget (fail_counts w) sym) (dget (pass_counts w) sym)
            (dget (last_action_trade w) sym)).
Proof.
  intros Hev.
  destruct (analyze_at L C src w sym st Hev)
    as (w1 & pnls & Hst & _ & Hm & _ & _ & Hv1 & Hv2 & _).
  cbn zeta in *. unfold view in Hv1, Hv2.
  injection Hv1 as Hf1 Hp1 Hl1 _. injection Hv2 as _ _ _ Hs2.
  rewrite Hs2, (eval_symbol_entry L C _ _ _ _ _ Hst). congruence.
Qed.

Lemma X8_entry_shows_step1_counters_witness :
  STATE (analyze CPython.lib cfg_quick pair w_act).1 !! X =
    Some (entry_of CPython.lib cfg_quick (tick_count pair) (MODE w_act)
            {| ws_edge := lit (-2) 0; ws_conf := F64.zero;
               ws_survival := lit (-3) 0; ws_is_failing := true |}
            (dget (fail_counts w_act) X) (dget (pass_counts w_act) X)
            (dget (last_action_trade w_act) X)).
Proof.
  apply (X8_entry_shows_step1_counters CPython.lib cfg_quick pair w_act X).
  vm_compute. reflexivity.
Defined.

(** X9. A symbol without a record in the window is left alone by the
    tick: its counters, its time of last action and its snapshot entry
    are what they were, and no command is emitted for it. *)
Theorem X9_absent_symbol_untouched (L : pylib) (C : config) (src : source) (w : world) (sym : symbol) :
  Forall (fun t => getitem t "symbol" ≠ Ok sym)
         (py_slice_from (- WINDOW C) (load_trades src)) →
  view sym (analyze L C src w).1 = view sym w ∧
  commands_for sym (emitted_since w (analyze L C src w).1) = [].
Proof.
  intros Hrows.
  assert (quiet sym w (analyze L C src w).1) as Hq.
  { unfold analyze. destruct (_ <? WINDOW C); [apply quiet_refl|].
    unfold bind, lift.
    destruct (fill_buckets L _ []) as [b|e] eqn:Hb; [|apply quiet_refl].
    apply eval_buckets_quiet.
    destruct (fill_buckets_spec L _ _ _ Hb) as (prs & Hp & _ & Hk).
    intros Hin. apply Hk in Hin as [Hin|Hin]; [by apply elem_of_nil in Hin|].
    clear Hb Hk. induction Hp as [|t p rows prs Ht _ IH]; cbn in Hin.
    - by apply elem_of_nil in Hin.
    - apply Forall_cons in Hrows as [Hsym Hrows].
      apply elem_of_cons in Hin as [->|Hin]; [|by apply IH].
      apply Hsym. unfold parse_row in Ht.
      destruct (getitem t "symbol") as [s|]; cbn in Ht; [|done].
      destruct (getitem t "total_pnl") as [cell|]; cbn in Ht; [|done].
      destruct (float_of_cell L cell); cbn in Ht; [|done].
      by simplify_eq. }
  split; [apply Hq|]. by apply quiet_commands.
Qed.

Lemma X9_absent_symbol_untouched_witness :
  view Y (analyze CPython.lib cfg losing w_act).1 = view Y w_act ∧
  commands_for Y (emitted_since w_act (analyze CPython.lib cfg losing w_act).1) = [].
Proof.
  apply (X9_absent_symbol_untouched CPython.lib cfg losing w_act Y).
  change (py_slice_from _ _) with (replicate 20 (trade "X" "-2.0")).
  apply Forall_replicate. vm_compute. discriminate.
Defined.

(** X10. The snapshot is never pruned: a symbol that has an entry keeps
    one through any number of ticks, also when it leaves the window. *)
Theorem X10_entries_persist (L : pylib) (C : config) (srcs : list source) (w : world) (sym : symbol) :
  is_Some (STATE w !! sym) → is_Some (STATE (run_ticks L C srcs w) !! sym).
Proof.
  revert w. induction srcs as [|src rest IH]; intros w H; cbn [run_ticks].
  - exact H.
  - apply IH. by apply analyze_keeps_entries.
Qed.

Lemma X10_entries_persist_witness :
  is_Some (STATE (run_ticks CPython.lib cfg_quick [pair; short]
                    (analyze CPython.lib cfg_quick pair w_act).1) !! Y).
Proof.
  apply (X10_entries_persist CPython.lib cfg_quick [pair; short]
           (analyze CPython.lib cfg_quick pair w_act).1 Y).
  eexists. vm_compute. reflexivity.
Defined.

(** X11. The first loop partitions the window: the keys of [buckets]
    are exactly the symbols of the rows of the window, without
    repetition, and the bucket of a symbol holds the PnL values of its
    rows in their order; no bucket is empty, so the [0.0] that [analyze]
    keeps for the edge of an empty bucket is never used. *)
Theorem X11_buckets_partition_the_window (L : pylib) (C : config) (src : source) (b : buckets_t) :
  window_buckets L C src = Ok b →
  ∃ prs,
    Forall2 (fun t p => parse_row L t = Ok p)
            (py_slice_from (- WINDOW C) (load_trades src)) prs ∧
    NoDup (bucket_keys b) ∧
    (∀ sym, sym ∈ bucket_keys b ↔ sym ∈ prs.*1) ∧
    (∀ sym pnls, (sym, pnls) ∈ b → pnls = values_of sym prs ∧ pnls ≠ []).
Proof.
  unfold window_buckets. intros Hb.
  destruct (fill_buckets_spec L _ _ _ Hb) as (prs & Hp & Hg & Hk).
  pose proof (fill_buckets_nodup L _ [] _ (NoDup_nil_2 : NoDup (bucket_keys [])) Hb) as Hnd.
  assert (∀ sym, sym ∈ bucket_keys b ↔ sym ∈ prs.*1) as Hkeys.
  { intros sym. rewrite Hk. split; [|by right].
    intros [Hin|Hin]; [by apply elem_of_nil in Hin|done]. }
  exists prs. split; [done|]. split; [done|]. split; [done|].
  intros sym pnls Hin.
  assert (pnls = values_of sym prs) as ->.
  { rewrite <- (bucket_get_elem sym pnls b Hnd Hin). apply Hg. }
  split; [done|]. apply values_of_nonempty, Hkeys.
  unfold bucket_keys. by apply (list_elem_of_fmap_2 fst) in Hin.
Qed.

Lemma X11_buckets_partition_the_window_witness :
  ∃ prs,
    Forall2 (fun t p => parse_row CPython.lib t = Ok p)
            (py_slice_from (- WINDOW cfg_quick) (load_trades pair)) prs ∧
    NoDup (bucket_keys [(X, [lit (-2) 0]); (Y, [lit 3 0])]) ∧
    (∀ sym, sym ∈ bucket_keys [(X, [lit (-2) 0]); (Y, [lit 3 0])] ↔ sym ∈ prs.*1) ∧
    (∀ sym pnls, (sym, pnls) ∈ [(X, [lit (-2) 0]); (Y, [lit 3 0])] →
                 pnls = values_of sym prs ∧ pnls ≠ []).
Proof.
  apply (X11_buckets_partition_the_window CPython.lib cfg_quick pair).
  vm_compute. reflexivity.
Defined.

(** X12. A tick whose window holds a row that cannot be read raises the
    error of the first such row (a missing column gives [KeyError], an
    unfilled PnL cell [TypeError], a PnL that [float] rejects what
    [float] raises), and leaves everything as it was. *)
Theorem X12_first_unreadable_row (L : pylib) (C : config) (rows pre post : list row)
    (t : row) (e : exn) (w : world) :
  WINDOW C ≤ Z.of_nat (length rows) →
  py_slice_from (- WINDOW C) rows = pre ++ t :: post →
  Forall (fun t => is_raise (parse_row L t) = false) pre →
  parse_row L t = Raise e →
  analyze L C (Readable rows) w = (w, Raise e) ∧
  (t !! "symbol" = None → e = KeyError) ∧
  (is_Some (t !! "symbol") → t !! "total_pnl" = None → e = KeyError) ∧
  (is_Some (t !! "symbol") → t !! "total_pnl" = Some None → e = TypeError).
Proof.
  intros Hw Hslice Hpre Ht. split.
  - unfold analyze. cbn [load_trades].
    assert ((Z.of_nat (length rows) <? WINDOW C) = false) as -> by lia.
    unfold bind, lift. rewrite Hslice.
    by rewrite (fill_buckets_raises_first L pre t post [] e Hpre Ht).
  - unfold parse_row, getitem, float_of_cell in Ht. repeat split.
    + intros H. rewrite H in Ht. cbn in Ht. congruence.
    + intros [s Hs] H. rewrite Hs, H in Ht. cbn in Ht. congruence.
    + intros [s Hs] H. rewrite Hs, H in Ht. cbn in Ht. congruence.
Qed.

Lemma X12_first_unreadable_row_witness :
  analyze CPython.lib cfg_quick (Readable [trade "X" "1.0"; bare]) w_act =
    (w_act, Raise KeyError) ∧
  (bare !! "symbol" = None → KeyError = KeyError) ∧
  (is_Some (bare !! "symbol") → bare !! "total_pnl" = None → KeyError = KeyError) ∧
  (is_Some (bare !! "symbol") → bare !! "total_pnl" = Some None →
   KeyError = TypeError).
Proof.
  apply (X12_first_unreadable_row CPython.lib cfg_quick
           [trade "X" "1.0"; bare] [trade "X" "1.0"] [] bare KeyError w_act).
  - vm_compute. discriminate.
  - reflexivity.
  - constructor; [|constructor]. vm_compute. reflexivity.
  - vm_compute. reflexivity.
Defined.

(** X13. A tick depends on the history only through its length and its
    last [WINDOW] rows: two histories of the same length that end with
    the same window give the same tick. *)
Theorem X13_only_the_window_and_the_count (L : pylib) (C : config) (old1 old2 recent : list row) (w : world) :
  length old1 = length old2 →
  Z.of_nat (length recent) = WINDOW C → (0 < length recent)%nat →
  analyze L C (Readable (old1 ++ recent)) w =
  analyze L C (Readable (old2 ++ recent)) w.
Proof.
  intros Hlen Hw Hpos. unfold analyze. cbn [load_trades].
  rewrite !length_app, Hlen, <- Hw.
  by rewrite !py_slice_from_recent.
Qed.

Lemma X13_only_the_window_and_the_count_witness :
  analyze CPython.lib cfg_quick (Readable ([trade "X" "9.0"] ++ pair_rows)) w_act =
  analyze CPython.lib cfg_quick (Readable ([trade "Y" "-7.0"] ++ pair_rows)) w_act.
Proof.
  apply (X13_only_the_window_and_the_count CPython.lib cfg_quick
           [trade "X" "9.0"] [trade "Y" "-7.0"] pair_rows w_act).
  - reflexivity.
  - reflexivity.
  - cbn. lia.
Defined.

(** X14. A tick returns without raising when its window can be read,
    the statistics of every bucket can be computed, both weights are
    configured and [emit] cannot fail. *)
Theorem X14_tick_returns (L : pylib) (C : config) (src : source) (w : world) (b : buckets_t) :
  window_buckets L C src = Ok b →
  Forall (fun sp => is_raise (compute_stats L C sp.2) = false) b →
  is_Some (max_weight C) → is_Some (min_weight C) → emits_succeed w →
  (analyze L C src w).2 = Ok tt.
Proof.
  unfold window_buckets. intros Hb Hst Hhi Hlo Hs. unfold analyze.
  destruct (_ <? WINDOW C); [done|]. unfold bind, lift. rewrite Hb.
  by apply eval_buckets_returns.
Qed.

Lemma X14_tick_returns_witness :
  (analyze CPython.lib cfg_quick pair w_act).2 = Ok tt.
Proof.
  apply (X14_tick_returns CPython.lib cfg_quick pair w_act
           [(X, [lit (-2) 0]); (Y, [lit 3 0])]).
  - vm_compute. reflexivity.
  - repeat constructor.
  - eexists. reflexivity.
  - eexists. reflexivity.
  - right. eexists. reflexivity.
Defined.





(** X18. The mode changes only through [POST /set_mode], and only to one
    of the three modes: after any history of ticks, handler turns,
    connections, requests and changes of the environment, the mode is
    the one the history started with or a valid mode that a request of
    the history asked for. *)
Theorem X18_mode_is_configured_or_requested (L : pylib) (C : config) (evs : list event) (w : world) :
  let w' := run_events L C evs w in
  MODE w' = MODE w ∨ (Set_mode (MODE w') ∈ evs ∧ valid_mode (MODE w')).
Proof.
  cbn zeta. induction evs as [|ev evs IH] using rev_ind; [by left|].
  rewrite run_events_snoc.
  destruct (handle_mode L C ev (run_events L C evs w)) as [->|[Hev Hv]].
  - destruct IH as [->|[Hin Hv]]; [by left|]. right. split; [|done].
    apply elem_of_app. by left.
  - right. split; [|done]. apply elem_of_app. right.
    rewrite <- Hev. apply list_elem_of_here.
Qed.

(** X19. [CLIENTS] only holds sockets that were accepted: a socket that
    is subscribed after a history was subscribed before it or was
    accepted by the [/ws] handler during it. *)
Theorem X19_subscribers_were_accepted (L : pylib) (C : config) (evs : list event) (w : world) (c : nat) :
  c ∈ CLIENTS (run_events L C evs w) → c ∈ CLIENTS w ∨ Accept c ∈ evs.
Proof.
  induction evs as [|ev evs IH] using rev_ind; [by left|].
  rewrite run_events_snoc. intros Hin.
  apply handle_clients in Hin as [Hin| ->].
  - destruct (IH Hin) as [?|?]; [by left|]. right. apply elem_of_app. by left.
  - right. apply elem_of_app. right. apply list_elem_of_here.
Qed.

Lemma X19_subscribers_were_accepted_witness :
  2%nat ∈ CLIENTS (initial "OBSERVE" (Some []) {[1%nat; 2%nat]}) ∨
  Accept 2%nat ∈ [Accept 1%nat; Set_mode "ACT"; Accept 2%nat; Turn 1%nat short].
Proof.
  apply (X19_subscribers_were_accepted CPython.lib cfg
           [Accept 1%nat; Set_mode "ACT"; Accept 2%nat; Turn 1%nat short]
           (initial "OBSERVE" (Some []) {[1%nat; 2%nat]}) 2%nat).
  vm_compute. reflexivity.
Defined.



(** X21. With a positive confidence threshold, a symbol with fewer than
    five records in the window is failing whatever its edge. *)
Theorem X21_few_records_always_fail (L : pylib) (C : config) (pnls : list float) (st : window_stats) :
  (length pnls < 5)%nat → F64.ltb F64.zero (MIN_CONF C) = true →
  compute_stats L C pnls = Ok st →
  ws_is_failing st = true ∧ ws_conf st = F64.zero.
Proof.
  intros Hlen Hpos Hst. unfold compute_stats, compute_confidence in Hst.
  assert ((Z.of_nat (length pnls) <? 5) = true) as Hlt by lia.
  rewrite Hlt in Hst.
  destruct (match pnls with [] => _ | _ => _ end) as [edge|]; [|done].
  cbn [result_bind] in Hst. injection Hst as <-. cbn [ws_is_failing ws_conf].
  rewrite Hpos. by rewrite orb_true_r.
Qed.

Lemma X21_few_records_always_fail_witness :
  ws_is_failing
    {| ws_edge := lit 100 0; ws_conf := F64.zero; ws_survival := lit 99 0;
       ws_is_failing := true |} = true ∧
  ws_conf
    {| ws_edge := lit 100 0; ws_conf := F64.zero; ws_survival := lit 99 0;
       ws_is_failing := true |} = F64.zero.
Proof.
  apply (X21_few_records_always_fail CPython.lib cfg [lit 100 0]).
  - cbn. lia.
  - vm_compute. reflexivity.
  - vm_compute. reflexivity.
Defined.

(** X22. With a confidence threshold that is zero or negative the
    confidence never fails a symbol: [is_failing] is the test of the
    survival against [MIN_EDGE] alone. *)
Theorem X22_nonpositive_threshold (L : pylib) (C : config) (pnls : list float) (st : window_stats) :
  F64.leb (MIN_CONF C) F64.zero = true →
  compute_stats L C pnls = Ok st →
  ws_is_failing st = F64.ltb (ws_survival st) (MIN_EDGE C).
Proof.
  intros Hle Hst. unfold compute_stats, compute_confidence in Hst.
  destruct (match pnls with [] => _ | _ => _ end) as [edge|]; [|done].
  cbn [result_bind] in Hst.
  destruct (Z.of_nat (length pnls) <? 5).
  - cbn [result_bind] in Hst. injection Hst as <-.
    cbn [ws_is_failing ws_survival].
    rewrite (ltb_nonneg_below F64.zero _ Hle); [by rewrite orb_false_r|].
    intros k [= <-]. apply lex_lt_irrefl.
  - destruct (statistics_mean L pnls) as [mu|]; [|done].
    cbn [result_bind] in Hst.
    destruct (statistics_pstdev L pnls) as [sd|]; [|done].
    cbn [result_bind] in Hst. unfold py_truediv in Hst.
    destruct (F64.is_zero _); [done|]. cbn [result_bind] in Hst.
    injection Hst as <-. cbn [ws_is_failing ws_survival].
    rewrite (ltb_nonneg_below (F64.abs _) _ Hle); [by rewrite orb_false_r|].
    apply abs_key.
Qed.

Lemma X22_nonpositive_threshold_witness :
  ws_is_failing
    {| ws_edge := lit (-2) 0; ws_conf := F64.zero; ws_survival := lit (-2) 0;
       ws_is_failing := true |} =
  F64.ltb (ws_survival
             {| ws_edge := lit (-2) 0; ws_conf := F64.zero;
                ws_survival := lit (-2) 0; ws_is_failing := true |})
          (MIN_EDGE cfg_lenient).
Proof.
  apply (X22_nonpositive_threshold CPython.lib cfg_lenient [lit (-2) 0]).
  - vm_compute. reflexivity.
  - vm_compute. reflexivity.
Defined.

(** X23. When [max_weight] is configured below [min_weight], every
    ENABLE command carries [max_weight], rounded to 3 digits, whatever
    the confidence. *)
Theorem X23_swapped_weights (L : pylib) (C : config) (src : source) (w : world)
    (c : command) (hi lo : float) :
  max_weight C = Some hi → min_weight C = Some lo → F64.ltb hi lo = true →
  c ∈ emitted_since w (analyze L C src w).1 → is_enable c = true →
  ∃ sym, c = ENABLE_ENGINE sym (py_round L hi 3).
Proof.
  intros Hhi Hlo Hlt. unfold analyze.
  destruct (_ <? WINDOW C).
  { cbn. rewrite emitted_since_refl. intros H. by apply elem_of_nil in H. }
  unfold bind, lift. destruct (fill_buckets L _ []) as [b|e].
  2:{ cbn. rewrite emitted_since_refl. intros H. by apply elem_of_nil in H. }
  intros Hin Hen.
  destruct (eval_buckets_enable L C _ _ _ _ Hin Hen)
    as (s & pnls & st & hi' & lo' & _ & _ & Hhi' & Hlo' & ->).
  rewrite Hhi in Hhi'. rewrite Hlo in Hlo'. simplify_eq.
  exists s. by rewrite py_min_max_swapped.
Qed.

Lemma X23_swapped_weights_witness :
  ∃ sym, ENABLE_ENGINE X (lit 5 (-2)) =
         ENABLE_ENGINE sym (py_round CPython.lib (lit 5 (-2)) 3).
Proof.
  apply (X23_swapped_weights CPython.lib cfg_swapped mixed w_act
           (ENABLE_ENGINE X (lit 5 (-2))) (lit 5 (-2)) (lit 5 (-1))).
  - reflexivity.
  - reflexivity.
  - vm_compute. reflexivity.
  - vm_compute. apply list_elem_of_here.
  - reflexivity.
Defined.
